(** * WikiWeave: the cursor manager and the wiki-link notation

    A shallow embedding of [CursorManager] (packages/core/src/cursor-manager.ts)
    over a model of the textarea it drives, and of the wiki-link notation
    described by [WikiLinkData] (packages/core/src/types/data-structures.ts).

    - [JsString]: the string operations the code uses ([length],
      [substring], [+]).
    - [JsNumber]: JavaScript numbers as far as [setSelection] compares them.
    - [Dom]: the textarea: its value, its selection and its focus.
    - [CursorManager]: the static methods, in a state-and-exception monad.
    - [WikiLink]: the [[target|display#section]] notation.
    - [Utils]: [escapeRegex] and [generateId] (utils.ts).
    - [DomBuilder]: the element factory (dom-builder.ts), over [Element].
    - [Parser]: [Parser.render] (parser.ts), over its two collaborators.
    - [Debounce]: [debounce] (utils.ts), over a model of the timers. *)

From Stdlib Require Import ZArith QArith Qround Bool List Lia.
From Stdlib Require Import Ascii String DecimalString DecimalZ.

Import ListNotations.
Local Open Scope Z_scope.

(* ================================================================== *)
(** ** Strings *)

Module JsString.

Local Open Scope string_scope.

(** [s.length]. *)
Definition len (s : string) : Z := Z.of_nat (String.length s).

Fixpoint take (n : nat) (s : string) : string :=
  match n, s with
  | S n', String c s' => String c (take n' s')
  | _, _ => EmptyString
  end.

Fixpoint drop (n : nat) (s : string) : string :=
  match n, s with
  | S n', String _ s' => drop n' s'
  | _, _ => s
  end.

(** An index argument of [substring]: below 0 it counts as 0, above the
    length as the length. *)
Definition clampIndex (s : string) (i : Z) : Z := Z.max 0 (Z.min i (len s)).

(** [s.substring(a, b)]; [b = None] is the call with one argument.  Both
    indices are clamped and, when the first exceeds the second, swapped. *)
Definition substring (s : string) (a : Z) (b : option Z) : string :=
  let a' := clampIndex s a in
  let b' := match b with Some b => clampIndex s b | None => len s end in
  let lo := Z.min a' b' in
  let hi := Z.max a' b' in
  take (Z.to_nat (hi - lo)) (drop (Z.to_nat lo) s).

End JsString.

(* ================================================================== *)
(** ** Numbers *)

Module JsNumber.

(** A JavaScript [number], as far as the cursor manager looks at one: it only
    compares offsets and hands them to the textarea.  Every finite double is
    a rational, and comparing doubles is exact, so [Q] stands for the finite
    values. *)
Inductive number : Type :=
| Finite (q : Q)
| NaN
| Infinity (negative : bool).

Definition ofZ (z : Z) : number := Finite (inject_Z z).

Definition Qltb (a b : Q) : bool := negb (Qle_bool b a).

(** [a < b]; any comparison with [NaN] is false. *)
Definition lt (a b : number) : bool :=
  match a, b with
  | Finite x, Finite y => Qltb x y
  | Finite _, Infinity neg => negb neg
  | Infinity neg, Finite _ => neg
  | Infinity na, Infinity nb => na && negb nb
  | _, _ => false
  end.

(** [a > b]. *)
Definition gt (a b : number) : bool := lt b a.

Definition isInteger (n : number) : bool :=
  match n with
  | Finite q => Qeq_bool (inject_Z (Qfloor q)) q
  | _ => false
  end.

Definition truncate (q : Q) : Z :=
  if Qle_bool 0 q then Qfloor q else Qceiling q.

(** The conversion of a [number] argument to the [unsigned long] of the
    DOM interface: [NaN] and the infinities become 0, a finite number loses
    its fraction.  The reduction modulo 2^32 is left out: the offsets that
    reach the textarea are bounded by the length of a string. *)
Definition toUnsignedLong (n : number) : Z :=
  match n with
  | Finite q => truncate q
  | _ => 0
  end.

End JsNumber.

(* ================================================================== *)
(** ** The textarea *)

Module Dom.

Import JsString JsNumber.

(** Carriage return and line feed. *)
Definition CR : ascii := "013"%char.
Definition LF : ascii := "010"%char.

Fixpoint hasCR (s : string) : bool :=
  match s with
  | EmptyString => false
  | String c s' => Ascii.eqb c CR || hasCR s'
  end.

Definition noCR (s : string) : Prop := hasCR s = false.

(** The line breaks of a textarea's value: whatever string is assigned, the
    [value] that is read back has one LF for every CR LF pair and for every
    other CR. *)
Fixpoint normalizeNewlines (s : string) : string :=
  match s with
  | EmptyString => EmptyString
  | String c s' =>
      if Ascii.eqb c CR then
        String LF
          match s' with
          | EmptyString => EmptyString
          | String d s'' =>
              if Ascii.eqb d LF then normalizeNewlines s''
              else normalizeNewlines s'
          end
      else String c (normalizeNewlines s')
  end.

(** The part of an [HTMLTextAreaElement] that the cursor manager reads and
    writes.  [value] is what reading [textarea.value] gives; the offsets of
    the selection count its characters. *)
Record HTMLTextAreaElement : Type := {
  value : string;
  selectionStart : Z;
  selectionEnd : Z;
  focused : bool
}.

(** What a textarea guarantees about its selection and about its value, which
    holds no carriage return. *)
Definition wf (t : HTMLTextAreaElement) : Prop :=
  0 <= selectionStart t <= selectionEnd t /\ selectionEnd t <= len (value t)
  /\ noCR (value t).

Definition wfb (t : HTMLTextAreaElement) : bool :=
  (0 <=? selectionStart t) && (selectionStart t <=? selectionEnd t)
  && (selectionEnd t <=? len (value t)) && negb (hasCR (value t)).

(** [textarea.value = v]: the textarea keeps [v] with its line breaks
    normalised; a value that differs from the present one moves the caret to
    its end and drops the selection. *)
Definition set_value (v : string) (t : HTMLTextAreaElement)
  : HTMLTextAreaElement :=
  let v' := normalizeNewlines v in
  if String.eqb v' (value t) then t
  else {| value := v'; selectionStart := len v'; selectionEnd := len v';
          focused := focused t |}.

(** [textarea.setSelectionRange(start, end)]: the end is capped by the
    length of the value, the start by the end. *)
Definition setSelectionRange (start end_ : number) (t : HTMLTextAreaElement)
  : HTMLTextAreaElement :=
  let e := Z.min (toUnsignedLong end_) (len (value t)) in
  let s := Z.min (toUnsignedLong start) e in
  {| value := value t; selectionStart := s; selectionEnd := e;
     focused := focused t |}.

(** [textarea.focus()]. *)
Definition focus (t : HTMLTextAreaElement) : HTMLTextAreaElement :=
  {| value := value t; selectionStart := selectionStart t;
     selectionEnd := selectionEnd t; focused := true |}.

End Dom.

(* ================================================================== *)
(** ** The cursor manager *)

Module CursorManager.

Import JsString JsNumber Dom.
Local Open Scope string_scope.

(** *** Types (types/data-structures.ts) *)

Record CursorSelection : Type := {
  start : Z;
  end_ : Z;
  hasSelection : bool;
  text : string
}.

Record TextInsertionResult : Type := {
  newStart : Z;
  newEnd : Z;
  modified : bool
}.

(** *** Errors

    Every failure is a [throw new Error(message)]; the constructors name the
    throw sites. *)
Inductive Error : Type :=
| GetSelectionTextareaRequired
| SetSelectionTextareaRequired
| SetSelectionStartNegative
| SetSelectionStartExceeds
| SetSelectionEndNegative
| SetSelectionEndBeforeStart
| SetSelectionEndExceeds
| InsertTextTextareaRequired
| InsertTextTextRequired
| WrapSelectionTextareaRequired
| WrapSelectionPrefixRequired
| WrapSelectionSuffixRequired.

Definition message (e : Error) : string :=
  match e with
  | GetSelectionTextareaRequired => "CursorManager.getSelection: textarea is required"
  | SetSelectionTextareaRequired => "CursorManager.setSelection: textarea is required"
  | SetSelectionStartNegative =>
      "CursorManager.setSelection: start must be a non-negative number"
  | SetSelectionStartExceeds =>
      "CursorManager.setSelection: start position exceeds textarea length"
  | SetSelectionEndNegative =>
      "CursorManager.setSelection: end must be a non-negative number"
  | SetSelectionEndBeforeStart =>
      "CursorManager.setSelection: end must be greater than or equal to start"
  | SetSelectionEndExceeds =>
      "CursorManager.setSelection: end position exceeds textarea length"
  | InsertTextTextareaRequired => "CursorManager.insertText: textarea is required"
  | InsertTextTextRequired => "CursorManager.insertText: text is required"
  | WrapSelectionTextareaRequired => "CursorManager.wrapSelection: textarea is required"
  | WrapSelectionPrefixRequired => "CursorManager.wrapSelection: prefix is required"
  | WrapSelectionSuffixRequired => "CursorManager.wrapSelection: suffix is required"
  end.

(** The two kinds of failure the specification speaks of: a required
    argument that is null or undefined, and an offset that is out of bounds
    or inverted. *)
Inductive ErrorKind : Type := InvalidArgument | InvalidRange.

Definition kind (e : Error) : ErrorKind :=
  match e with
  | SetSelectionStartNegative | SetSelectionStartExceeds
  | SetSelectionEndNegative | SetSelectionEndBeforeStart
  | SetSelectionEndExceeds => InvalidRange
  | _ => InvalidArgument
  end.

(** *** State and exceptions

    A method body runs on the textarea it was given; a throw leaves the
    textarea as the statements before it made it. *)
Definition M (A : Type) : Type :=
  HTMLTextAreaElement -> (Error + A) * HTMLTextAreaElement.

Definition ret {A} (a : A) : M A := fun t => (inr a, t).

Definition bind {A B} (m : M A) (k : A -> M B) : M B :=
  fun t =>
    match m t with
    | (inl e, t') => (inl e, t')
    | (inr a, t') => k a t'
    end.

Definition throw {A} (e : Error) : M A := fun t => (inl e, t).

Definition read {A} (f : HTMLTextAreaElement -> A) : M A :=
  fun t => (inr (f t), t).

Definition write (f : HTMLTextAreaElement -> HTMLTextAreaElement) : M unit :=
  fun t => (inr tt, f t).

Notation "x <- m ;; k" := (bind m (fun x => k))
  (at level 61, m at next level, right associativity).
Notation "m ;; k" := (bind m (fun _ => k))
  (at level 61, right associativity).

(** [if (c) { throw new Error(e) }]. *)
Definition throwIf (c : bool) (e : Error) : M unit :=
  if c then throw e else ret tt.

(** [if (x === undefined || x === null) { throw new Error(e) }]. *)
Definition required {A} (x : option A) (e : Error) : M A :=
  match x with
  | None => throw e
  | Some a => ret a
  end.

(** The result of a call and the textarea after it.  [None] is a null or
    undefined reference: [if (!textarea) { throw new Error(e) }] comes
    first in every method. *)
Definition Outcome (A : Type) : Type :=
  (Error + A) * option HTMLTextAreaElement.

Definition withTextarea {A} (textarea : option HTMLTextAreaElement)
    (e : Error) (body : M A) : Outcome A :=
  match textarea with
  | None => (inl e, None)
  | Some t => let (r, t') := body t in (r, Some t')
  end.

(** *** Methods *)

Definition getSelectionM : M CursorSelection :=
  start <- read selectionStart ;;
  end' <- read selectionEnd ;;
  value <- read value ;;
  let text := substring value start (Some end') in
  let hasSelection := negb (start =? end')%Z in
  ret {| start := start; end_ := end'; hasSelection := hasSelection;
         text := text |}.

Definition getSelection (textarea : option HTMLTextAreaElement)
  : Outcome CursorSelection :=
  withTextarea textarea GetSelectionTextareaRequired getSelectionM.

Definition getSelectedText (textarea : option HTMLTextAreaElement)
  : Outcome string :=
  match getSelection textarea with
  | (inl e, t) => (inl e, t)
  | (inr selection, t) => (inr (text selection), t)
  end.

(** [end_ = None] is the call without [end].  The tests [typeof ... !==
    'number'] have no case here: the parameters are numbers.  The calls from
    [insertText] and [wrapSelection] pass the textarea they were given, which
    is not null, and leave [focus] out, which makes it [true]. *)
Definition setSelectionM (start : number) (end_ : option number) (focus : bool)
  : M unit :=
  length <- read (fun t => len (value t)) ;;
  throwIf (lt start (ofZ 0)) SetSelectionStartNegative ;;
  throwIf (gt start (ofZ length)) SetSelectionStartExceeds ;;
  let endPos := match end_ with Some e => e | None => start end in
  throwIf (lt endPos (ofZ 0)) SetSelectionEndNegative ;;
  throwIf (lt endPos start) SetSelectionEndBeforeStart ;;
  throwIf (gt endPos (ofZ length)) SetSelectionEndExceeds ;;
  write (setSelectionRange start endPos) ;;
  (if focus then write Dom.focus else ret tt).

Definition setSelection (textarea : option HTMLTextAreaElement)
    (start : number) (end_ : option number) (focus : bool) : Outcome unit :=
  withTextarea textarea SetSelectionTextareaRequired
    (setSelectionM start end_ focus).

(** [selectInserted] is [false] when the caller leaves it out. *)
Definition insertTextM (text : option string) (selectInserted : bool)
  : M TextInsertionResult :=
  text <- required text InsertTextTextRequired ;;
  start <- read selectionStart ;;
  end' <- read selectionEnd ;;
  value <- read value ;;
  let before := substring value 0 (Some start) in
  let after := substring value end' None in
  let newValue := (before ++ text) ++ after in
  write (set_value newValue) ;;
  let '(newStart, newEnd) :=
    if selectInserted then (start, start + len text)
    else (start + len text, start + len text) in
  setSelectionM (ofZ newStart) (Some (ofZ newEnd)) true ;;
  ret {| newStart := newStart; newEnd := newEnd; modified := true |}.

Definition insertText (textarea : option HTMLTextAreaElement)
    (text : option string) (selectInserted : bool)
  : Outcome TextInsertionResult :=
  withTextarea textarea InsertTextTextareaRequired
    (insertTextM text selectInserted).

Definition replaceSelection (textarea : option HTMLTextAreaElement)
    (replacement : option string) : Outcome TextInsertionResult :=
  insertText textarea replacement false.

(** [selectWrapped] is [false] when the caller leaves it out. *)
Definition wrapSelectionM (prefix suffix : option string) (selectWrapped : bool)
  : M TextInsertionResult :=
  prefix <- required prefix WrapSelectionPrefixRequired ;;
  suffix <- required suffix WrapSelectionSuffixRequired ;;
  selection <- getSelectionM ;;
  let originalStart := start selection in
  let wrappedText := (prefix ++ text selection) ++ suffix in
  value <- read value ;;
  let before := substring value 0 (Some originalStart) in
  let after := substring value (end_ selection) None in
  write (set_value ((before ++ wrappedText) ++ after)) ;;
  let '(newStart, newEnd) :=
    if negb (hasSelection selection) then
      (originalStart + len prefix, originalStart + len prefix)
    else if selectWrapped then
      (originalStart + len prefix,
       originalStart + len prefix + len (text selection))
    else
      (originalStart + len wrappedText, originalStart + len wrappedText) in
  setSelectionM (ofZ newStart) (Some (ofZ newEnd)) true ;;
  ret {| newStart := newStart; newEnd := newEnd; modified := true |}.

Definition wrapSelection (textarea : option HTMLTextAreaElement)
    (prefix suffix : option string) (selectWrapped : bool)
  : Outcome TextInsertionResult :=
  withTextarea textarea WrapSelectionTextareaRequired
    (wrapSelectionM prefix suffix selectWrapped).

End CursorManager.

(* ================================================================== *)
(** ** The wiki-link notation *)

Module WikiLink.

Import JsString.
Local Open Scope string_scope.

(** [WikiLinkData] of types/data-structures.ts. *)
Record WikiLinkData : Type := {
  target : string;
  display : string;
  section : option string;
  raw : string
}.

(** Modelled from the spec: one item of what [parse] yields, the data of a
    span and where the span lies. *)
Record WikiLinkMatch : Type := {
  data : WikiLinkData;
  matchStart : nat;
  matchEnd : nat
}.

(** The offset of the first occurrence of [pat] in [s]. *)
Fixpoint indexOf (pat s : string) : option nat :=
  if String.prefix pat s then Some 0%nat
  else match s with
       | EmptyString => None
       | String _ s' => option_map S (indexOf pat s')
       end.

(** [s] cut at the first [sep]: what is before it and, when there is one,
    what is after it. *)
Definition splitFirst (sep s : string) : string * option string :=
  match indexOf sep s with
  | None => (s, None)
  | Some i => (take i s, Some (drop (i + String.length sep) s))
  end.

(** Modelled from the spec: the reading of one bracketed span, which the
    repository only announces (Parser.registerWikiLinkPlugin is a stub in a
    comment).  The span is cut at the first bar; without a bar the section is
    what follows the first hash of the target, with a bar it is what follows
    the first hash of the display segment; an absent or empty display is the
    target. *)
Definition parseSpan (inner rawText : string) : WikiLinkData :=
  match splitFirst "|" inner with
  | (whole, None) =>
      let (tgt, sec) := splitFirst "#" whole in
      {| target := tgt; display := tgt; section := sec; raw := rawText |}
  | (tgt, Some shown) =>
      let (disp, sec) := splitFirst "#" shown in
      {| target := tgt;
         display := if String.eqb disp "" then tgt else disp;
         section := sec; raw := rawText |}
  end.

(** Modelled from the spec: the scan behind [parse], absent from the
    repository.  [pos] is the offset of [s] in the text and [skip] the number
    of characters still inside the span matched last. *)
Fixpoint scan (s : string) (pos skip : nat) : list WikiLinkMatch :=
  match s with
  | EmptyString => []
  | String _ s' =>
      match skip with
      | S k => scan s' (S pos) k
      | O =>
          if String.prefix "[[" s then
            match indexOf "]]" (drop 2 s) with
            | Some k =>
                {| data := parseSpan (take k (drop 2 s)) (take (k + 4) s);
                   matchStart := pos;
                   matchEnd := (pos + k + 4)%nat |}
                :: scan s' (S pos) (k + 3)
            | None => scan s' (S pos) 0
            end
          else scan s' (S pos) 0
      end
  end.

(** Modelled from the spec: [parse], absent from the repository: every
    bracketed span of the text from left to right, an opening pair of
    brackets closed by the first closing pair after it, spans not
    overlapping. *)
Definition parse (text : string) : list WikiLinkMatch := scan text 0 0.

End WikiLink.

(* ================================================================== *)
(** ** The effect of the methods, in closed form *)

Module Effect.

Import JsString JsNumber Dom CursorManager.
Local Open Scope string_scope.
Local Open Scope Z_scope.

(** The textarea a successful [setSelection] leaves behind. *)
Definition selected (t : HTMLTextAreaElement) (a b : Z) (focus : bool)
  : HTMLTextAreaElement :=
  {| value := value t; selectionStart := a; selectionEnd := b;
     focused := if focus then true else focused t |}.

(** The value [insertText] assigns. *)
Definition inserted (t : HTMLTextAreaElement) (text : string) : string :=
  (substring (value t) 0 (Some (selectionStart t)) ++ text)
  ++ substring (value t) (selectionEnd t) None.

(** The selected text, as [getSelection] reads it. *)
Definition selectedText (t : HTMLTextAreaElement) : string :=
  substring (value t) (selectionStart t) (Some (selectionEnd t)).

(** The value [wrapSelection] assigns. *)
Definition wrapped (t : HTMLTextAreaElement) (prefix suffix : string)
  : string :=
  (substring (value t) 0 (Some (selectionStart t))
   ++ ((prefix ++ selectedText t) ++ suffix))
  ++ substring (value t) (selectionEnd t) None.

(** The caret or selection [wrapSelection] computes. *)
Definition wrapRange (t : HTMLTextAreaElement) (prefix suffix : string)
    (selectWrapped : bool) : Z * Z :=
  let s := selectionStart t in
  if selectionStart t =? selectionEnd t then (s + len prefix, s + len prefix)
  else if selectWrapped then
    (s + len prefix, s + len prefix + len (selectedText t))
  else
    (s + len ((prefix ++ selectedText t) ++ suffix),
     s + len ((prefix ++ selectedText t) ++ suffix)).

End Effect.

(* ================================================================== *)
(** ** The vocabulary of the statements *)

Import JsString JsNumber Dom CursorManager Effect.
Local Open Scope string_scope.
Local Open Scope Z_scope.

(** The buffer "Hello World" with "World" selected. *)
Definition helloWorld : HTMLTextAreaElement :=
  {| value := "Hello World"; selectionStart := 6; selectionEnd := 11;
     focused := false |}.

(** A reference to a textarea that keeps its guarantees, or no textarea. *)
Definition wfRef (textarea : option HTMLTextAreaElement) : Prop :=
  match textarea with
  | Some t => wf t
  | None => True
  end.

(** [content] without the [prefixLength] characters at [wrapStart] and the
    [suffixLength] characters that end at [wrapEnd]. *)
Definition removeWrapper (content : string)
    (wrapStart wrapEnd prefixLength suffixLength : Z) : string :=
  (substring content 0 (Some wrapStart)
   ++ substring content (wrapStart + prefixLength) (Some (wrapEnd - suffixLength)))
  ++ substring content wrapEnd None.



(** The call threw. *)
Definition fails {A} (o : Outcome A) : Prop :=
  match fst o with inl _ => True | inr _ => False end.

(** The buffer "abc" with the caret at its beginning. *)
Definition abc : HTMLTextAreaElement :=
  {| value := "abc"; selectionStart := 0; selectionEnd := 0; focused := false |}.

(** The line break CR LF and the lone CR, as strings. *)
Definition crlf : string := String CR (String LF "").
Definition cr : string := String CR "".

(** The buffer "ab" with the caret between the two letters. *)
Definition ab : HTMLTextAreaElement :=
  {| value := "ab"; selectionStart := 1; selectionEnd := 1; focused := false |}.


(* ================================================================== *)
(** ** A textarea as three pieces of text *)

Module View.

Import JsString Dom.
Local Open Scope string_scope.
Local Open Scope Z_scope.

(** What lies before the selection and what lies after it. *)
Definition textBefore (t : HTMLTextAreaElement) : string :=
  substring (value t) 0 (Some (selectionStart t)).

Definition textAfter (t : HTMLTextAreaElement) : string :=
  substring (value t) (selectionEnd t) None.

(** The textarea whose value is [before ++ selection ++ after], with
    [selection] selected. *)
Definition zipper (before selection after : string) (focus : bool)
  : HTMLTextAreaElement :=
  {| value := before ++ selection ++ after;
     selectionStart := len before;
     selectionEnd := len before + len selection;
     focused := focus |}.

End View.

(* ================================================================== *)
(** ** Utilities (utils.ts) *)

Module Utils.

Import JsString.
Local Open Scope string_scope.
Local Open Scope Z_scope.

(** The characters of the class in [/[.*+?^${}()|[\]\\]/g]. *)
Definition regexSpecials : string := ".*+?^${}()|[]\".

Definition isRegexSpecial (c : ascii) : bool :=
  existsb (Ascii.eqb c) (list_ascii_of_string regexSpecials).

(** [str.replace(/[.*+?^${}()|[\]\\]/g, '\\$&')]: every character of the
    class is replaced by a backslash and itself. *)
Fixpoint escapeRegex (str : string) : string :=
  match str with
  | EmptyString => EmptyString
  | String c rest =>
      if isRegexSpecial c then String "\" (String c (escapeRegex rest))
      else String c (escapeRegex rest)
  end.

(** [`${timestamp}`] for an integer timestamp. *)
Definition decimal (n : Z) : string := NilZero.string_of_int (Z.to_int n).

(** [generateId(prefix = 'wikiweave')].  [now] is what [Date.now()] returns
    and [random36] what [Math.random().toString(36)] returns in this call. *)
Definition generateId (prefix : option string) (now : Z) (random36 : string)
  : string :=
  let prefix := match prefix with Some p => p | None => "wikiweave" end in
  let timestamp := now in
  let random := substring random36 2 (Some 9) in
  prefix ++ "-" ++ decimal timestamp ++ "-" ++ random.

End Utils.

(* ================================================================== *)
(** ** Reading an escaped string as a pattern *)

Module Pattern.

Import Utils.
Local Open Scope string_scope.

(** The string that a pattern matches when the pattern is made of literal
    atoms only: a character outside the class stands for itself, a backslash
    followed by a character of the class stands for that character.  Any
    other pattern (a bare character of the class, a backslash before another
    character or at the end) is not a literal. *)
Fixpoint literalOf (pattern : string) : option string :=
  match pattern with
  | EmptyString => Some EmptyString
  | String c rest =>
      if Ascii.eqb c "\" then
        match rest with
        | String d rest' =>
            if isRegexSpecial d then option_map (String d) (literalOf rest')
            else None
        | EmptyString => None
        end
      else if isRegexSpecial c then None
      else option_map (String c) (literalOf rest)
  end.

(** The number of characters of the class in a string. *)
Fixpoint countSpecial (s : string) : Z :=
  match s with
  | EmptyString => 0
  | String c rest => (if isRegexSpecial c then 1 else 0) + countSpecial rest
  end.

End Pattern.

(* ================================================================== *)
(** ** The shape of a generated id *)

Module IdShape.

Local Open Scope string_scope.

Definition isDigit (c : ascii) : bool :=
  existsb (Ascii.eqb c) (list_ascii_of_string "0123456789").

Fixpoint allDigits (s : string) : bool :=
  match s with
  | EmptyString => true
  | String c rest => isDigit c && allDigits rest
  end.

End IdShape.

(* ================================================================== *)
(** ** More of strings and numbers: [trim] and truthiness *)

Module JsValue.

Import JsNumber.
Local Open Scope string_scope.

(** White space and line terminators among the characters of the model:
    tab, line feed, vertical tab, form feed, carriage return, space and
    no-break space. *)
Definition isWhiteSpace (c : ascii) : bool :=
  let n := nat_of_ascii c in
  ((9 <=? n) && (n <=? 13) || (n =? 32) || (n =? 160))%nat.

Fixpoint trimStart (s : string) : string :=
  match s with
  | EmptyString => EmptyString
  | String c rest => if isWhiteSpace c then trimStart rest else s
  end.

Fixpoint trimEnd (s : string) : string :=
  match s with
  | EmptyString => EmptyString
  | String c rest =>
      match trimEnd rest with
      | EmptyString => if isWhiteSpace c then EmptyString else String c EmptyString
      | rest' => String c rest'
      end
  end.

(** [s.trim()]. *)
Definition trim (s : string) : string := trimEnd (trimStart s).

(** A string in a condition: the empty string counts as false. *)
Definition truthy (s : string) : bool := negb (String.eqb s "").

(** An optional string in a condition: undefined counts as false. *)
Definition truthyOpt (s : option string) : bool :=
  match s with
  | Some s => truthy s
  | None => false
  end.

(** A number in a condition: 0 and NaN count as false. *)
Definition truthyNumber (n : number) : bool :=
  match n with
  | Finite q => negb (Qeq_bool q 0)
  | NaN => false
  | Infinity _ => true
  end.

End JsValue.

(* ================================================================== *)
(** ** Elements and options (types/dom.ts) *)

Module Element.

Import JsNumber.

Local Unset Elimination Schemes.

(** An element as the builder leaves it: its tag, the properties the builder
    assigns, the attributes it sets and the children it appends. *)
Inductive t : Type := make {
  tagName : string;
  className : string;
  id : string;
  attributes : list (string * string);
  placeholder : option string;
  rows : option Z;
  spellcheck : option bool;
  display : option string;
  type_ : option string;
  title : option string;
  innerHTML : option string;
  textContent : option string;
  children : list t
}.

Local Set Elimination Schemes.

(** [document.createElement(tag)]. *)
Definition createElement (tag : string) : t :=
  make tag EmptyString EmptyString [] None None None None None None None None [].

Definition set_className (v : string) (e : t) : t :=
  make (tagName e) v (id e) (attributes e) (placeholder e) (rows e)
    (spellcheck e) (display e) (type_ e) (title e) (innerHTML e)
    (textContent e) (children e).

Definition set_id (v : string) (e : t) : t :=
  make (tagName e) (className e) v (attributes e) (placeholder e) (rows e)
    (spellcheck e) (display e) (type_ e) (title e) (innerHTML e)
    (textContent e) (children e).

(** [e.setAttribute(name, v)]: an attribute of that name is replaced. *)
Definition setAttribute (name v : string) (e : t) : t :=
  make (tagName e) (className e) (id e)
    (filter (fun a => negb (String.eqb (fst a) name)) (attributes e)
     ++ [(name, v)])
    (placeholder e) (rows e) (spellcheck e) (display e) (type_ e) (title e)
    (innerHTML e) (textContent e) (children e).

Definition set_placeholder (v : string) (e : t) : t :=
  make (tagName e) (className e) (id e) (attributes e) (Some v) (rows e)
    (spellcheck e) (display e) (type_ e) (title e) (innerHTML e)
    (textContent e) (children e).

(** The conversion of a number to the [unsigned long] of the DOM interface,
    in full: the number without its fraction, modulo 2^32. *)
Definition unsignedLong (v : number) : Z := toUnsignedLong v mod 2 ^ 32.

(** What a textarea keeps of a number assigned to [rows], an unsigned long
    that admits 1 to 2147483647 and falls back to its default, 2, for any
    other value (HTML Standard, reflection of an attribute limited to only
    positive numbers with fallback). *)
Definition rowsKept (v : number) : Z :=
  let n := unsignedLong v in
  if (1 <=? n) && (n <=? 2147483647) then n else 2.

(** [e.rows = v]. *)
Definition set_rows (v : number) (e : t) : t :=
  make (tagName e) (className e) (id e) (attributes e) (placeholder e)
    (Some (rowsKept v))
    (spellcheck e) (display e) (type_ e) (title e) (innerHTML e)
    (textContent e) (children e).

Definition set_spellcheck (v : bool) (e : t) : t :=
  make (tagName e) (className e) (id e) (attributes e) (placeholder e) (rows e)
    (Some v) (display e) (type_ e) (title e) (innerHTML e)
    (textContent e) (children e).

(** [e.style.display = v]. *)
Definition set_display (v : string) (e : t) : t :=
  make (tagName e) (className e) (id e) (attributes e) (placeholder e) (rows e)
    (spellcheck e) (Some v) (type_ e) (title e) (innerHTML e)
    (textContent e) (children e).

Definition set_type (v : string) (e : t) : t :=
  make (tagName e) (className e) (id e) (attributes e) (placeholder e) (rows e)
    (spellcheck e) (display e) (Some v) (title e) (innerHTML e)
    (textContent e) (children e).

Definition set_title (v : string) (e : t) : t :=
  make (tagName e) (className e) (id e) (attributes e) (placeholder e) (rows e)
    (spellcheck e) (display e) (type_ e) (Some v) (innerHTML e)
    (textContent e) (children e).

(** [e.innerHTML = v]: the element parses [v] as a fragment of HTML, and
    what [innerHTML] reads afterwards is that fragment written out again,
    which need not be [v].  The round trip is the browser's: [reserialize]
    stands for it. *)
Definition set_innerHTML (reserialize : string -> string) (v : string) (e : t)
  : t :=
  make (tagName e) (className e) (id e) (attributes e) (placeholder e) (rows e)
    (spellcheck e) (display e) (type_ e) (title e) (Some (reserialize v))
    (textContent e) (children e).

Definition set_textContent (v : string) (e : t) : t :=
  make (tagName e) (className e) (id e) (attributes e) (placeholder e) (rows e)
    (spellcheck e) (display e) (type_ e) (title e) (innerHTML e)
    (Some v) (children e).

(** [e.appendChild(child)]. *)
Definition appendChild (child : t) (e : t) : t :=
  make (tagName e) (className e) (id e) (attributes e) (placeholder e) (rows e)
    (spellcheck e) (display e) (type_ e) (title e) (innerHTML e)
    (textContent e) (children e ++ [child]).

End Element.

Module DomElementOptions.
Record t : Type := { id : option string; className : option string }.
End DomElementOptions.

Module TextareaOptions.
(** [TextareaOptions extends DomElementOptions]. *)
Record t : Type := {
  id : option string;
  className : option string;
  rows : option JsNumber.number;
  spellcheck : option bool
}.
End TextareaOptions.

Module ToolbarButtonOptions.
Record t : Type := {
  id : option string;
  title : string;
  icon : string;
  ariaLabel : string
}.
End ToolbarButtonOptions.

Module EditorStructure.
Record t : Type := {
  container : Element.t;
  toolbar : Element.t;
  editorBody : Element.t;
  textarea : Element.t;
  preview : Element.t;
  autocomplete : Element.t
}.
End EditorStructure.

Module EditorStructureOptions.
Record t : Type := {
  placeholder : option string;
  containerId : option string;
  textareaOptions : option TextareaOptions.t
}.
End EditorStructureOptions.

(* ================================================================== *)
(** ** The element factory (dom-builder.ts) *)

Module DomBuilder.

Import JsString JsNumber JsValue Utils.
Local Open Scope string_scope.

(** The throw sites, with the name of the calling method where the message
    carries it.  The tests on [typeof] have no case here: the options have
    the types of their interfaces. *)
Inductive DomError : Type :=
| IdCannotBeEmpty (methodName : string)
| RowsMustBePositive
| ToolbarButtonOptionsRequired
| TitleRequired
| IconRequired
| AriaLabelRequired.

Definition message (e : DomError) : string :=
  match e with
  | IdCannotBeEmpty methodName =>
      "DomBuilder." ++ methodName ++ ": options.id cannot be empty"
  | RowsMustBePositive =>
      "DomBuilder.createTextarea: options.rows must be a positive number"
  | ToolbarButtonOptionsRequired =>
      "DomBuilder.createToolbarButton: options is required"
  | TitleRequired => "DomBuilder.createToolbarButton: options.title is required"
  | IconRequired => "DomBuilder.createToolbarButton: options.icon is required"
  | AriaLabelRequired =>
      "DomBuilder.createToolbarButton: options.ariaLabel is required"
  end.

Section Environment.

(** What [Date.now()] and [Math.random().toString(36)] return in the n-th
    call of [generateId]. *)
Variable now : nat -> Z.
Variable random36 : nat -> string.

(** What [innerHTML] reads after a string was assigned to it. *)
Variable reserialize : string -> string.

(** A method runs with the number of ids generated so far, and may throw. *)
Definition D (A : Type) : Type := nat -> (DomError + A) * nat.

Definition ret {A} (a : A) : D A := fun n => (inr a, n).

Definition bind {A B} (m : D A) (k : A -> D B) : D B :=
  fun n =>
    match m n with
    | (inl e, n') => (inl e, n')
    | (inr a, n') => k a n'
    end.

Definition throw {A} (e : DomError) : D A := fun n => (inl e, n).

Local Notation "x <~ m ;; k" := (bind m (fun x => k))
  (at level 61, m at next level, right associativity).
Local Notation "m ~;; k" := (bind m (fun _ => k))
  (at level 61, right associativity).

Definition throwIf (c : bool) (e : DomError) : D unit :=
  if c then throw e else ret tt.

(** [generateId(prefix)]. *)
Definition freshId (prefix : string) : D string :=
  fun n => (inr (generateId (Some prefix) (now n) (random36 n)), S n).

(** [id || generateId(prefix)]. *)
Definition idOr (id : option string) (prefix : string) : D string :=
  if truthyOpt id then ret (match id with Some i => i | None => "" end)
  else freshId prefix.

Definition validateDomOptions (options : option DomElementOptions.t)
    (methodName : string) : D unit :=
  match options with
  | None => ret tt
  | Some options =>
      match DomElementOptions.id options with
      | Some id => throwIf (String.eqb (trim id) "") (IdCannotBeEmpty methodName)
      | None => ret tt
      end
  end.

(** [if (options?.className) { const customClasses = options.className.trim();
    if (customClasses) { e.className += ` ${customClasses}` } }]. *)
Definition addCustomClasses (options : option DomElementOptions.t)
    (e : Element.t) : Element.t :=
  match options with
  | Some options =>
      match DomElementOptions.className options with
      | Some className =>
          if truthy className then
            let customClasses := trim className in
            if truthy customClasses then
              Element.set_className
                (Element.className e ++ " " ++ customClasses) e
            else e
          else e
      | None => e
      end
  | None => e
  end.

Definition optionsId (options : option DomElementOptions.t) : option string :=
  match options with
  | Some options => DomElementOptions.id options
  | None => None
  end.

Definition createEditorContainer (options : option DomElementOptions.t)
  : D Element.t :=
  validateDomOptions options "createEditorContainer" ~;;
  let container := Element.createElement "div" in
  let container := Element.set_className "wikiweave-editor" container in
  let container := addCustomClasses options container in
  id <~ idOr (optionsId options) "editor" ;;
  ret (Element.set_id id container).

Definition createToolbar (options : option DomElementOptions.t)
  : D Element.t :=
  validateDomOptions options "createToolbar" ~;;
  let toolbar := Element.createElement "div" in
  let toolbar := Element.setAttribute "role" "toolbar" toolbar in
  let toolbar := Element.set_className "wikiweave-toolbar" toolbar in
  let toolbar := addCustomClasses options toolbar in
  id <~ idOr (optionsId options) "toolbar" ;;
  ret (Element.set_id id toolbar).

Definition createEditorBody (options : option DomElementOptions.t)
  : D Element.t :=
  validateDomOptions options "createEditorBody" ~;;
  let editorBody := Element.createElement "div" in
  let editorBody := Element.set_className "wikiweave-editor-body" editorBody in
  let editorBody := addCustomClasses options editorBody in
  id <~ idOr (optionsId options) "editor-body" ;;
  ret (Element.set_id id editorBody).

Definition textareaRows (options : option TextareaOptions.t) : option number :=
  match options with
  | Some options => TextareaOptions.rows options
  | None => None
  end.

(** [if (options?.rows)]. *)
Definition hasRows (options : option TextareaOptions.t) : bool :=
  match textareaRows options with
  | Some rows => truthyNumber rows
  | None => false
  end.

Definition createTextarea (placeholder : option string)
    (options : option TextareaOptions.t) : D Element.t :=
  throwIf
    (hasRows options
     && match textareaRows options with
        | Some rows => lt rows (ofZ 1)
        | None => false
        end)
    RowsMustBePositive ~;;
  let textarea := Element.createElement "textarea" in
  let textarea := Element.set_className "wikiweave-textarea" textarea in
  id <~ idOr (match options with
              | Some options => TextareaOptions.id options
              | None => None
              end) "textarea" ;;
  let textarea := Element.set_id id textarea in
  let textarea :=
    match placeholder with
    | Some p => if truthy p then Element.set_placeholder p textarea else textarea
    | None => textarea
    end in
  let textarea :=
    match textareaRows options with
    | Some rows =>
        if truthyNumber rows then Element.set_rows rows textarea else textarea
    | None => textarea
    end in
  let textarea :=
    Element.set_spellcheck
      (match options with
       | Some options =>
           match TextareaOptions.spellcheck options with
           | Some b => b
           | None => true
           end
       | None => true
       end) textarea in
  let textarea :=
    match options with
    | Some options =>
        match TextareaOptions.className options with
        | Some className =>
            if truthy className then
              Element.set_className
                (Element.className textarea ++ " " ++ trim className) textarea
            else textarea
        | None => textarea
        end
    | None => textarea
    end in
  ret textarea.

Definition createPreview (options : option DomElementOptions.t)
  : D Element.t :=
  validateDomOptions options "createPreview" ~;;
  let preview := Element.createElement "article" in
  let preview := Element.setAttribute "role" "region" preview in
  let preview := Element.setAttribute "aria-label" "Markdown preview" preview in
  let preview := Element.set_className "wikiweave-preview" preview in
  let preview := addCustomClasses options preview in
  id <~ idOr (optionsId options) "preview" ;;
  ret (Element.set_id id preview).

Definition createAutocomplete (options : option DomElementOptions.t)
  : D Element.t :=
  validateDomOptions options "createAutocomplete" ~;;
  let autocomplete := Element.createElement "ul" in
  let autocomplete := Element.setAttribute "role" "listbox" autocomplete in
  let autocomplete := Element.set_display "none" autocomplete in
  let autocomplete := Element.set_className "wikiweave-autocomplete" autocomplete in
  let autocomplete := addCustomClasses options autocomplete in
  id <~ idOr (optionsId options) "autocomplete" ;;
  ret (Element.set_id id autocomplete).

(** [!s || s.trim() === '']. *)
Definition blank (s : string) : bool :=
  negb (truthy s) || String.eqb (trim s) "".

Definition createToolbarButton (options : option ToolbarButtonOptions.t)
  : D Element.t :=
  match options with
  | None => throw ToolbarButtonOptionsRequired
  | Some options =>
      throwIf (blank (ToolbarButtonOptions.title options)) TitleRequired ~;;
      throwIf (blank (ToolbarButtonOptions.icon options)) IconRequired ~;;
      throwIf (blank (ToolbarButtonOptions.ariaLabel options)) AriaLabelRequired ~;;
      let button := Element.createElement "button" in
      let button := Element.set_type "button" button in
      let button := Element.set_className "wikiweave-toolbar-button" button in
      let button := Element.set_title (ToolbarButtonOptions.title options) button in
      let button :=
        Element.setAttribute "aria-label"
          (ToolbarButtonOptions.ariaLabel options) button in
      let button :=
        Element.set_innerHTML reserialize (ToolbarButtonOptions.icon options)
          button in
      id <~ idOr (ToolbarButtonOptions.id options) "toolbar-button" ;;
      ret (Element.set_id id button)
  end.

Definition createAutocompleteItem (value : string) (displayText : option string)
  : Element.t :=
  let autocompleteItem := Element.createElement "li" in
  let autocompleteItem :=
    Element.set_className "wikiweave-autocomplete-item" autocompleteItem in
  let autocompleteItem := Element.setAttribute "role" "option" autocompleteItem in
  let autocompleteItem := Element.setAttribute "tabindex" "-1" autocompleteItem in
  let autocompleteItem :=
    Element.setAttribute "data-value" value autocompleteItem in
  Element.set_textContent
    (if truthyOpt displayText
     then match displayText with Some d => d | None => "" end
     else value)
    autocompleteItem.

Definition createEditorStructure (options : option EditorStructureOptions.t)
  : D EditorStructure.t :=
  let containerId :=
    match options with
    | Some options => EditorStructureOptions.containerId options
    | None => None
    end in
  container <~ createEditorContainer
                 (if truthyOpt containerId
                  then Some {| DomElementOptions.id := containerId;
                               DomElementOptions.className := None |}
                  else None) ;;
  toolbar <~ createToolbar None ;;
  editorBody <~ createEditorBody None ;;
  textarea <~ createTextarea
                (match options with
                 | Some options => EditorStructureOptions.placeholder options
                 | None => None
                 end)
                (match options with
                 | Some options => EditorStructureOptions.textareaOptions options
                 | None => None
                 end) ;;
  preview <~ createPreview None ;;
  autocomplete <~ createAutocomplete None ;;
  let editorBody := Element.appendChild textarea editorBody in
  let editorBody := Element.appendChild preview editorBody in
  let container := Element.appendChild toolbar container in
  let container := Element.appendChild editorBody container in
  let container := Element.appendChild autocomplete container in
  ret {| EditorStructure.container := container;
         EditorStructure.toolbar := toolbar;
         EditorStructure.editorBody := editorBody;
         EditorStructure.textarea := textarea;
         EditorStructure.preview := preview;
         EditorStructure.autocomplete := autocomplete |}.

End Environment.

End DomBuilder.

(* ================================================================== *)
(** ** What the creators promise, for the statements *)

Module DomBuilderContract.

Import JsValue Utils DomBuilder.
Local Open Scope string_scope.

Definition optionsClassName (options : option DomElementOptions.t)
  : option string :=
  match options with
  | Some options => DomElementOptions.className options
  | None => None
  end.

(** The class of a container: the base class, followed by the custom classes
    without the white space around them when there are any. *)
Definition classWith (base : string) (className : option string) : string :=
  match className with
  | Some className =>
      if String.eqb (trim className) "" then base
      else base ++ " " ++ trim className
  | None => base
  end.

(** What the creators of the containers have in common: an id that is given
    and blank is refused, a given id is kept as it is, a missing id is
    generated with the prefix of the creator. *)
Definition boxContract (now : nat -> Z) (random36 : nat -> string)
    (create : option DomElementOptions.t -> D Element.t)
    (methodName tag base prefix : string) : Prop :=
  forall (options : option DomElementOptions.t) (n : nat),
    let shaped e :=
      Element.tagName e = tag
      /\ Element.className e = classWith base (optionsClassName options)
      /\ Element.children e = [] in
    match optionsId options with
    | Some id =>
        if String.eqb (trim id) "" then
          create options n = (inl (IdCannotBeEmpty methodName), n)
        else
          exists e, create options n = (inr e, n)
                    /\ Element.id e = id /\ shaped e
    | None =>
        exists e, create options n = (inr e, S n)
                  /\ Element.id e
                     = generateId (Some prefix) (now n) (random36 n)
                  /\ shaped e
    end.

(** The rows option is refused: a number other than 0 and NaN, below 1. *)
Definition rowsRefused (options : option TextareaOptions.t) : bool :=
  match textareaRows options with
  | Some rows => truthyNumber rows && JsNumber.lt rows (JsNumber.ofZ 1)
  | None => false
  end.

Definition textareaId (options : option TextareaOptions.t) : option string :=
  match options with
  | Some options => TextareaOptions.id options
  | None => None
  end.

Definition textareaClassName (options : option TextareaOptions.t)
  : option string :=
  match options with
  | Some options => TextareaOptions.className options
  | None => None
  end.

(** The container id is refused: not empty, and blank. *)
Definition containerIdRefused (options : option EditorStructureOptions.t)
  : bool :=
  match options with
  | Some options =>
      match EditorStructureOptions.containerId options with
      | Some id => truthy id && String.eqb (trim id) ""
      | None => false
      end
  | None => false
  end.

Definition structureTextareaOptions (options : option EditorStructureOptions.t)
  : option TextareaOptions.t :=
  match options with
  | Some options => EditorStructureOptions.textareaOptions options
  | None => None
  end.

(** A container without children: its tag, class, id, attributes and
    display. *)
Definition box (tag className id : string) (attributes : list (string * string))
    (display : option string) : Element.t :=
  Element.make tag className id attributes None None None display
    None None None None [].

Definition structureContainerId (options : option EditorStructureOptions.t)
  : option string :=
  match options with
  | Some options => EditorStructureOptions.containerId options
  | None => None
  end.

Definition structurePlaceholder (options : option EditorStructureOptions.t)
  : option string :=
  match options with
  | Some options => EditorStructureOptions.placeholder options
  | None => None
  end.

(** The textarea that createTextarea returns when it does not refuse the
    rows. *)
Definition textareaOf (now : nat -> Z) (random36 : nat -> string)
    (placeholder : option string) (options : option TextareaOptions.t)
    (n : nat) : Element.t :=
  Element.make "textarea"
    (match textareaClassName options with
     | Some c => if truthy c then "wikiweave-textarea " ++ trim c
                 else "wikiweave-textarea"
     | None => "wikiweave-textarea"
     end)
    (if truthyOpt (textareaId options)
     then match textareaId options with Some i => i | None => "" end
     else generateId (Some "textarea") (now n) (random36 n))
    []
    (if truthyOpt placeholder then placeholder else None)
    (match textareaRows options with
     | Some r => if truthyNumber r then Some (Element.rowsKept r) else None
     | None => None
     end)
    (Some (match options with
           | Some o => match TextareaOptions.spellcheck o with
                       | Some b => b
                       | None => true
                       end
           | None => true
           end))
    None None None None None [].

(** The ids of the six elements of a structure. *)
Definition structureIds (s : EditorStructure.t) : list string :=
  [Element.id (EditorStructure.container s);
   Element.id (EditorStructure.toolbar s);
   Element.id (EditorStructure.editorBody s);
   Element.id (EditorStructure.textarea s);
   Element.id (EditorStructure.preview s);
   Element.id (EditorStructure.autocomplete s)].

(** A clock and a source of random numbers, for the examples. *)
Definition exampleNow (n : nat) : Z := 1728328476123 + Z.of_nat n.

Definition exampleRandom36 (n : nat) : string := "0.f2k9m3pzz".

(** A browser that writes the markup of the examples out as it was given. *)
Definition exampleReserialize (html : string) : string := html.

End DomBuilderContract.

(* ================================================================== *)
(** ** The markdown parser (parser.ts) *)

Module Parser.

Local Open Scope string_scope.

(** The throw sites of [render].  The test on [typeof markdown] has no case
    here: the parameter is a string. *)
Inductive ParserError : Type :=
| MarkdownRequired
| NotInitialized
| FailedToParse (message : string).

Definition message (e : ParserError) : string :=
  match e with
  | MarkdownRequired => "Parser.parse(): markdown parameter is required"
  | NotInitialized => "Parser.parse(): markdown-it not initialized."
  | FailedToParse message =>
      "Parser.parse(): Failed to parse markdown. " ++ message
  end.

Section Collaborators.

(** [this.md.render] and [sanitizeHtml]: each returns a string, on the
    right, or throws, on the left, where what is thrown is known by its
    message ([error.message], or [String(error)]). *)
Variable mdRender : string -> string + string.
Variable sanitizeHtml : string -> string + string.

(** [Parser.render]; [md] tells whether [this.md] is set. *)
Definition render (md : bool) (markdown : option string)
  : ParserError + string :=
  match markdown with
  | None => inl MarkdownRequired
  | Some markdown =>
      if negb md then inl NotInitialized
      else
        match mdRender markdown with
        | inl thrown => inl (FailedToParse thrown)
        | inr html =>
            match sanitizeHtml html with
            | inl thrown => inl (FailedToParse thrown)
            | inr sanitized => inr sanitized
            end
        end
  end.

End Collaborators.

(** A renderer and a sanitizer, for the examples. *)
Definition exampleRender (markdown : string) : string + string :=
  inr ("<p>" ++ markdown ++ "</p>").

Definition exampleSanitize (html : string) : string + string := inr html.

End Parser.

(* ================================================================== *)
(** ** debounce (utils.ts), over a model of the timers *)

Module Debounce.

Section Debounced.

(** The arguments of a call of the debounced function, and the delay. *)
Context {A : Type}.
Variable wait : Z.

(** A timer set by [setTimeout]: its id, the time it is due and the
    arguments its callback passes to [fn]. *)
Record Timer : Type := { timerId : nat; due : Z; args : A }.

(** The clock, the timers that are set, the [timeoutId] of the closure, and
    the arguments [fn] was called with so far, in order. *)
Record State : Type := {
  clock : Z;
  nextId : nat;
  pending : list Timer;
  timeoutId : option nat;
  invoked : list A
}.

Definition initial : State :=
  {| clock := 0; nextId := 1; pending := []; timeoutId := None; invoked := [] |}.

(** [setTimeout(() => fn(...a), delay)]: a delay below 0 counts as 0. *)
Definition setTimeout (a : A) (delay : Z) (s : State) : nat * State :=
  (nextId s,
   {| clock := clock s; nextId := S (nextId s);
      pending := pending s
                 ++ [{| timerId := nextId s; due := clock s + Z.max 0 delay;
                        args := a |}];
      timeoutId := timeoutId s; invoked := invoked s |}).

(** [clearTimeout(id)]: nothing happens when no such timer is set. *)
Definition clearTimeout (id : nat) (s : State) : State :=
  {| clock := clock s; nextId := nextId s;
     pending := filter (fun t => negb (Nat.eqb (timerId t) id)) (pending s);
     timeoutId := timeoutId s; invoked := invoked s |}.

(** One call of the function that [debounce(fn, wait)] returns. *)
Definition call (a : A) (s : State) : State :=
  let s :=
    match timeoutId s with
    | Some id => clearTimeout id s
    | None => s
    end in
  let (id, s) := setTimeout a wait s in
  {| clock := clock s; nextId := nextId s; pending := pending s;
     timeoutId := Some id; invoked := invoked s |}.

(** Time passes: the timers that are due by then fire, in the order in which
    they were set, which is the order of their due times because all have
    the same delay. *)
Definition advance (dt : Z) (s : State) : State :=
  let now := clock s + Z.max 0 dt in
  let fired := filter (fun t => due t <=? now) (pending s) in
  {| clock := now; nextId := nextId s;
     pending := filter (fun t => negb (due t <=? now)) (pending s);
     timeoutId := timeoutId s;
     invoked := invoked s ++ map args fired |}.

Inductive Event : Type :=
| Call (a : A)
| Wait (dt : Z).

Fixpoint run (events : list Event) (s : State) : State :=
  match events with
  | [] => s
  | Call a :: rest => run rest (call a s)
  | Wait dt :: rest => run rest (advance dt s)
  end.

(** What a debounced function is for, without timers: a call is passed on
    when [wait] milliseconds have gone by after it without another call.
    [last] is the call not yet passed on, with the time gone by since. *)
Fixpoint quiet (events : list Event) (last : option (A * Z)) : list A :=
  match events with
  | [] => []
  | Call a :: rest => quiet rest (Some (a, 0))
  | Wait dt :: rest =>
      match last with
      | Some (a, gone) =>
          if Z.max 0 wait <=? gone + Z.max 0 dt then a :: quiet rest None
          else quiet rest (Some (a, gone + Z.max 0 dt))
      | None => quiet rest None
      end
  end.

(** The timers stand for the call not yet passed on: none is set when there
    is no such call; otherwise one is set, the closure holds its id, and it is
    due when the rest of the delay has gone by. *)
Definition sim (s : State) (last : option (A * Z)) : Prop :=
  match last with
  | None => pending s = []
  | Some (a, gone) =>
      exists id,
        pending s
        = [{| timerId := id; due := clock s + (Z.max 0 wait - gone);
              args := a |}]
        /\ timeoutId s = Some id
  end.

(** Calls, each followed by some time. *)
Definition burst (calls : list (A * Z)) : list Event :=
  flat_map (fun c => [Call (fst c); Wait (snd c)]) calls.

End Debounced.

End Debounce.

(* ================================================================== *)
(** ** Facts about strings *)

Module JsStringFacts.

Lemma len_nonneg s : 0 <= len s.
Proof. unfold len; lia. Qed.

Lemma len_append a b : len (a ++ b) = len a + len b.
Proof.
  unfold len; induction a as [|c a IH]; cbn [append String.length].
  - lia.
  - rewrite !Nat2Z.inj_succ; lia.
Qed.

Lemma append_nil_r s : s ++ "" = s.
Proof. induction s as [|c s IH]; cbn; [reflexivity | now rewrite IH]. Qed.

Lemma append_assoc a b c : (a ++ b) ++ c = a ++ b ++ c.
Proof. induction a as [|x a IH]; cbn; [reflexivity | now rewrite IH]. Qed.

Lemma take_drop n s : take n s ++ drop n s = s.
Proof.
  revert s; induction n as [|n IH]; intros [|c s]; cbn; try reflexivity.
  now rewrite IH.
Qed.

Lemma take_all n s : (String.length s <= n)%nat -> take n s = s.
Proof.
  revert s; induction n as [|n IH]; intros [|c s]; cbn; intros H;
    try reflexivity; try lia.
  rewrite IH; [reflexivity | lia].
Qed.

Lemma take_0 s : take 0 s = "".
Proof. now destruct s. Qed.

Lemma drop_all n s : (String.length s <= n)%nat -> drop n s = "".
Proof.
  revert s; induction n as [|n IH]; intros [|c s]; cbn; intros H;
    try reflexivity; try lia.
  apply IH; lia.
Qed.

Lemma length_take n s : String.length (take n s) = Nat.min n (String.length s).
Proof.
  revert s; induction n as [|n IH]; intros [|c s]; cbn; try reflexivity.
  now rewrite IH.
Qed.

Lemma length_drop n s : String.length (drop n s) = (String.length s - n)%nat.
Proof.
  revert s; induction n as [|n IH]; intros [|c s]; cbn; try reflexivity.
  apply IH.
Qed.

Lemma take_app a b : take (String.length a) (a ++ b) = a.
Proof. induction a as [|c a IH]; cbn; [now destruct b | now rewrite IH]. Qed.

Lemma drop_app a b : drop (String.length a) (a ++ b) = b.
Proof. induction a as [|c a IH]; cbn; [reflexivity | exact IH]. Qed.

Lemma drop_drop n m s : drop n (drop m s) = drop (m + n) s.
Proof.
  revert s; induction m as [|m IH]; intros s; cbn [Nat.add].
  - now destruct s.
  - destruct s as [|c s]; cbn [drop].
    + now destruct n.
    + apply IH.
Qed.

(** The three shapes in which the code calls [substring]. *)

Lemma substring_prefix s i :
  0 <= i <= len s -> substring s 0 (Some i) = take (Z.to_nat i) s.
Proof.
  intros H; unfold substring, clampIndex.
  pose proof (len_nonneg s).
  replace (Z.max 0 (Z.min 0 (len s))) with 0 by lia.
  replace (Z.max 0 (Z.min i (len s))) with i by lia.
  replace (Z.min 0 i) with 0 by lia.
  replace (Z.max 0 i - 0) with i by lia.
  cbn [Z.to_nat]. now destruct s.
Qed.

Lemma substring_suffix s i :
  0 <= i <= len s -> substring s i None = drop (Z.to_nat i) s.
Proof.
  intros H; unfold substring, clampIndex.
  replace (Z.max 0 (Z.min i (len s))) with i by lia.
  replace (Z.min i (len s)) with i by lia.
  replace (Z.max i (len s)) with (len s) by lia.
  apply take_all. rewrite length_drop. unfold len in *; lia.
Qed.

Lemma substring_range s i j :
  0 <= i <= j -> j <= len s ->
  substring s i (Some j) = take (Z.to_nat (j - i)) (drop (Z.to_nat i) s).
Proof.
  intros H1 H2; unfold substring, clampIndex.
  replace (Z.max 0 (Z.min i (len s))) with i by lia.
  replace (Z.max 0 (Z.min j (len s))) with j by lia.
  replace (Z.min i j) with i by lia.
  replace (Z.max i j) with j by lia.
  reflexivity.
Qed.

Lemma len_substring_range s i j :
  0 <= i <= j -> j <= len s -> len (substring s i (Some j)) = j - i.
Proof.
  intros H1 H2. rewrite substring_range by assumption.
  unfold len in *. rewrite length_take, length_drop. lia.
Qed.

(** A string is its prefix, a span and its suffix. *)
Lemma substring_split s i j :
  0 <= i <= j -> j <= len s ->
  substring s 0 (Some i) ++ substring s i (Some j) ++ substring s j None = s.
Proof.
  intros H1 H2.
  rewrite substring_prefix, substring_range, substring_suffix by lia.
  replace (drop (Z.to_nat j) s)
    with (drop (Z.to_nat (j - i)) (drop (Z.to_nat i) s)).
  - now rewrite !take_drop.
  - rewrite drop_drop. f_equal. lia.
Qed.

(** The pieces of a concatenation, read back by their offsets. *)
Lemma substring_app_prefix a b :
  substring (a ++ b) 0 (Some (len a)) = a.
Proof.
  rewrite substring_prefix.
  - unfold len. rewrite Nat2Z.id. apply take_app.
  - rewrite len_append. pose proof (len_nonneg a); pose proof (len_nonneg b); lia.
Qed.

Lemma substring_app_suffix a b :
  substring (a ++ b) (len a) None = b.
Proof.
  rewrite substring_suffix.
  - unfold len. rewrite Nat2Z.id. apply drop_app.
  - rewrite len_append. pose proof (len_nonneg a); pose proof (len_nonneg b); lia.
Qed.

Lemma substring_app_middle a b c :
  substring (a ++ b ++ c) (len a) (Some (len a + len b)) = b.
Proof.
  pose proof (len_nonneg a); pose proof (len_nonneg b); pose proof (len_nonneg c).
  rewrite substring_range.
  - replace (len a + len b - len a) with (len b) by lia.
    unfold len. rewrite !Nat2Z.id, drop_app. apply take_app.
  - lia.
  - rewrite !len_append. lia.
Qed.

End JsStringFacts.

(* ================================================================== *)
(** ** Facts about numbers *)

Module JsNumberFacts.

Lemma Qltb_lt a b : Qltb a b = true <-> (a < b)%Q.
Proof.
  unfold Qltb. rewrite negb_true_iff, <- not_true_iff_false, Qle_bool_iff.
  split; [apply Qnot_le_lt | apply Qlt_not_le].
Qed.

Lemma lt_ofZ a b : lt (ofZ a) (ofZ b) = (a <? b).
Proof.
  unfold lt, ofZ, Qltb, Qle_bool; cbn.
  rewrite !Z.mul_1_r. now rewrite Z.ltb_antisym.
Qed.

Lemma toUnsignedLong_ofZ a : toUnsignedLong (ofZ a) = a.
Proof.
  unfold toUnsignedLong, ofZ, truncate.
  destruct (Qle_bool 0 (inject_Z a)); [apply Qfloor_Z | apply Qceiling_Z].
Qed.

Lemma isInteger_ofZ a : isInteger (ofZ a) = true.
Proof.
  unfold isInteger, ofZ. rewrite Qfloor_Z. apply Qeq_bool_iff. reflexivity.
Qed.

Lemma toUnsignedLong_nonneg (n : number) :
  lt n (ofZ 0) = false -> 0 <= toUnsignedLong n.
Proof.
  destruct n as [q| |neg]; cbn [lt ofZ toUnsignedLong]; try lia.
  unfold Qltb, truncate. rewrite negb_false_iff.
  change (inject_Z 0) with 0%Q. intros H. rewrite H.
  apply Qle_bool_iff, Qfloor_resp_le in H. exact H.
Qed.

End JsNumberFacts.

(* ================================================================== *)
(** ** Facts about the textarea *)

Module DomFacts.

Import JsStringFacts.

Lemma wfb_wf t : wfb t = true <-> wf t.
Proof.
  unfold wfb, wf, noCR.
  rewrite !andb_true_iff, !Z.leb_le, negb_true_iff. tauto.
Qed.

Lemma hasCR_append a b : hasCR (a ++ b) = hasCR a || hasCR b.
Proof.
  induction a as [|c a IH]; cbn; [reflexivity|]. now rewrite IH, orb_assoc.
Qed.

Lemma noCR_append a b : noCR a -> noCR b -> noCR (a ++ b).
Proof. unfold noCR. rewrite hasCR_append. now intros -> ->. Qed.

Lemma noCR_append_inv a b : noCR (a ++ b) -> noCR a /\ noCR b.
Proof. unfold noCR. rewrite hasCR_append. apply orb_false_iff. Qed.

Lemma noCR_cons c s : noCR (String c s) <-> Ascii.eqb c CR = false /\ noCR s.
Proof. unfold noCR; cbn [hasCR]. apply orb_false_iff. Qed.

Lemma noCR_take n s : noCR s -> noCR (take n s).
Proof.
  revert s; induction n as [|n IH]; intros [|c s] H; cbn [take];
    try reflexivity.
  apply noCR_cons in H. apply noCR_cons. split; [tauto | apply IH; tauto].
Qed.

Lemma noCR_drop n s : noCR s -> noCR (drop n s).
Proof.
  revert s; induction n as [|n IH]; intros [|c s] H; cbn [drop];
    try assumption.
  apply noCR_cons in H. apply IH; tauto.
Qed.

Lemma noCR_substring s a b : noCR s -> noCR (substring s a b).
Proof. intros H. unfold substring. now apply noCR_take, noCR_drop. Qed.

(** A string without carriage return is kept as it is. *)
Lemma normalizeNewlines_noCR s : noCR s -> normalizeNewlines s = s.
Proof.
  induction s as [|c s IH]; [reflexivity|].
  intros H. apply noCR_cons in H. destruct H as [Hc Hs].
  cbn [normalizeNewlines]. rewrite Hc. now rewrite IH.
Qed.

Lemma noCR_normalizeNewlines_bounded n :
  forall s, (String.length s <= n)%nat -> noCR (normalizeNewlines s).
Proof.
  induction n as [|n IH]; intros [|c s] Hlen; cbn [String.length] in Hlen;
    try reflexivity; try lia.
  cbn [normalizeNewlines]. destruct (Ascii.eqb c CR) eqn:Hc.
  - apply noCR_cons. split; [reflexivity|].
    destruct s as [|d s]; [reflexivity|].
    cbn [String.length] in Hlen.
    destruct (Ascii.eqb d LF); apply IH; cbn [String.length]; lia.
  - apply noCR_cons. split; [exact Hc | apply IH; lia].
Qed.

(** What is read back from a textarea holds no carriage return. *)
Lemma noCR_normalizeNewlines s : noCR (normalizeNewlines s).
Proof. now apply (noCR_normalizeNewlines_bounded (String.length s)). Qed.

Lemma value_set_value v t : value (set_value v t) = normalizeNewlines v.
Proof.
  unfold set_value.
  destruct (String.eqb_spec (normalizeNewlines v) (value t)) as [<-|];
    reflexivity.
Qed.

Lemma value_set_value_noCR v t : noCR v -> value (set_value v t) = v.
Proof. intros H. now rewrite value_set_value, normalizeNewlines_noCR. Qed.

Lemma focused_set_value v t : focused (set_value v t) = focused t.
Proof.
  unfold set_value. now destruct (String.eqb (normalizeNewlines v) (value t)).
Qed.

Lemma wf_set_value v t : wf t -> wf (set_value v t).
Proof.
  unfold set_value.
  destruct (String.eqb (normalizeNewlines v) (value t)); [trivial|].
  intros _. unfold wf; cbn.
  pose proof (len_nonneg (normalizeNewlines v)).
  pose proof (noCR_normalizeNewlines v). repeat split; try lia. assumption.
Qed.

End DomFacts.

(* ================================================================== *)
(** ** Facts about the methods *)

Module CursorManagerFacts.

Import JsStringFacts JsNumberFacts DomFacts.

Lemma len_substring_suffix s i :
  0 <= i <= len s -> len (substring s i None) = len s - i.
Proof.
  intros H. rewrite substring_suffix by assumption.
  unfold len in *. rewrite length_drop. lia.
Qed.

Lemma setSelectionM_ok t a b focus :
  0 <= a <= b -> b <= len (value t) ->
  setSelectionM (ofZ a) (Some (ofZ b)) focus t = (inr tt, selected t a b focus).
Proof.
  intros Hab Hb.
  unfold setSelectionM, bind, read, throwIf, gt. rewrite !lt_ofZ.
  replace (a <? 0) with false by (symmetry; apply Z.ltb_ge; lia).
  replace (len (value t) <? a) with false by (symmetry; apply Z.ltb_ge; lia).
  replace (b <? 0) with false by (symmetry; apply Z.ltb_ge; lia).
  replace (b <? a) with false by (symmetry; apply Z.ltb_ge; lia).
  replace (len (value t) <? b) with false by (symmetry; apply Z.ltb_ge; lia).
  cbn [ret write]. unfold setSelectionRange, selected.
  rewrite !toUnsignedLong_ofZ.
  replace (Z.min b (len (value t))) with b by lia.
  replace (Z.min a b) with a by lia.
  destruct focus; reflexivity.
Qed.

(** Integer offsets outside the bounds, or inverted, make it throw. *)
Lemma setSelectionM_out_of_range t a b focus :
  ~ (0 <= a <= b /\ b <= len (value t)) ->
  exists e,
    setSelectionM (ofZ a) (Some (ofZ b)) focus t = (inl e, t)
    /\ kind e = InvalidRange.
Proof.
  intros Hout.
  unfold setSelectionM, bind, read, throwIf, throw, gt. rewrite !lt_ofZ.
  repeat match goal with
         | |- context [if ?c <? ?d then _ else _] => destruct (Z.ltb_spec c d)
         end;
    try (eexists; split; reflexivity).
  exfalso; apply Hout; lia.
Qed.

(** A throw of [setSelection] comes before it touches the textarea. *)
Lemma setSelectionM_throw start end_ focus t e t' :
  setSelectionM start end_ focus t = (inl e, t') ->
  t' = t /\ kind e = InvalidRange.
Proof.
  unfold setSelectionM, bind, read, throwIf, throw, ret, write.
  repeat match goal with
         | |- context [if ?c then _ else _] => destruct c
         end;
    intros H; inversion H; subst; split; reflexivity.
Qed.

(** A return of [setSelection] leaves a valid selection. *)
Lemma setSelectionM_return start end_ focus t t' :
  noCR (value t) ->
  setSelectionM start end_ focus t = (inr tt, t') ->
  wf t' /\ value t' = value t.
Proof.
  intros Hcr.
  unfold setSelectionM, bind, read, throwIf, throw, ret, write.
  destruct (lt start (ofZ 0)) eqn:Hs; [discriminate|].
  destruct (gt start (ofZ (len (value t)))); [discriminate|].
  set (endPos := match end_ with Some e => e | None => start end).
  destruct (lt endPos (ofZ 0)) eqn:He; [discriminate|].
  destruct (lt endPos start); [discriminate|].
  destruct (gt endPos (ofZ (len (value t)))); [discriminate|].
  apply toUnsignedLong_nonneg in Hs, He.
  pose proof (len_nonneg (value t)).
  destruct focus; intros H'; inversion H'; subst t';
    unfold wf, Dom.focus, setSelectionRange; cbn;
    repeat split; try reflexivity; try assumption; lia.
Qed.

(** With integer offsets [setSelection] returns only with the range asked
    for. *)
Lemma setSelectionM_integers_return t a b focus t' :
  setSelectionM (ofZ a) (Some (ofZ b)) focus t = (inr tt, t') ->
  0 <= a <= b /\ b <= len (value t) /\ t' = selected t a b focus.
Proof.
  intros Hrun.
  destruct (Z_le_dec 0 a) as [H1|H1];
    [destruct (Z_le_dec a b) as [H2|H2];
     [destruct (Z_le_dec b (len (value t))) as [H3|H3]|]|];
    try (destruct (setSelectionM_out_of_range t a b focus) as (e & He & _);
         [lia | rewrite He in Hrun; discriminate Hrun]).
  rewrite setSelectionM_ok in Hrun by lia. inversion Hrun. repeat split; lia.
Qed.






Lemma wf_selected t a b focus :
  0 <= a <= b -> b <= len (value t) -> noCR (value t) ->
  wf (selected t a b focus).
Proof. unfold wf, selected; cbn; intros; repeat split; try lia; assumption. Qed.

Lemma len_inserted t text :
  wf t ->
  len (inserted t text)
  = selectionStart t + len text + (len (value t) - selectionEnd t).
Proof.
  intros (H1 & H2 & Hcr). unfold inserted.
  rewrite !len_append, len_substring_range, len_substring_suffix by lia. lia.
Qed.

Lemma inserted_empty t :
  inserted t ""
  = substring (value t) 0 (Some (selectionStart t))
    ++ substring (value t) (selectionEnd t) None.
Proof. unfold inserted. now rewrite append_nil_r. Qed.

Lemma inserted_empty_caret t :
  wf t -> selectionStart t = selectionEnd t -> inserted t "" = value t.
Proof.
  intros (H1 & H2 & Hcr) E. rewrite inserted_empty, <- E.
  rewrite <- (substring_split (value t) (selectionStart t) (selectionStart t))
    at 3 by lia.
  rewrite (substring_range (value t) (selectionStart t) (selectionStart t))
    by lia.
  now rewrite Z.sub_diag, take_0.
Qed.

Lemma noCR_selectedText t : wf t -> noCR (selectedText t).
Proof. intros (_ & _ & Hcr). now apply noCR_substring. Qed.

Lemma noCR_inserted t text : wf t -> noCR text -> noCR (inserted t text).
Proof.
  intros (_ & _ & Hcr) Htext. unfold inserted.
  repeat apply noCR_append; try assumption; now apply noCR_substring.
Qed.

Lemma noCR_wrapped t prefix suffix :
  wf t -> noCR prefix -> noCR suffix -> noCR (wrapped t prefix suffix).
Proof.
  intros (_ & _ & Hcr) Hp Hs. unfold wrapped, selectedText.
  repeat apply noCR_append; try assumption; now apply noCR_substring.
Qed.

(** [insertText] with its text present: the value is assigned, then the
    range is handed to [setSelection], whose outcome decides. *)
Lemma insertTextM_run t (text : string) (selectInserted : bool) :
  let newEnd := selectionStart t + len text in
  let newStart := if selectInserted then selectionStart t else newEnd in
  insertTextM (Some text) selectInserted t
  = match setSelectionM (ofZ newStart) (Some (ofZ newEnd)) true
            (set_value (inserted t text) t) with
    | (inl e, t') => (inl e, t')
    | (inr _, t') =>
        (inr {| newStart := newStart; newEnd := newEnd; modified := true |}, t')
    end.
Proof.
  unfold insertTextM, bind at 1 2 3 4 5, required, ret, read, write.
  fold (inserted t text).
  destruct selectInserted; cbn zeta; unfold bind;
    match goal with
    | |- context [setSelectionM ?a ?b ?c ?d] =>
        destruct (setSelectionM a b c d) as [[e|u] t1]
    end; reflexivity.
Qed.

Lemma insertTextM_ok t (text : string) (selectInserted : bool) :
  wf t -> noCR text ->
  let newEnd := selectionStart t + len text in
  let newStart := if selectInserted then selectionStart t else newEnd in
  insertTextM (Some text) selectInserted t
  = (inr {| newStart := newStart; newEnd := newEnd; modified := true |},
     {| value := inserted t text; selectionStart := newStart;
        selectionEnd := newEnd; focused := true |}).
Proof.
  intros Hwf Htext. pose proof (len_inserted t text Hwf) as Hlen.
  pose proof (noCR_inserted t text Hwf Htext) as Hnew.
  pose proof (len_nonneg text). destruct Hwf as (H1 & H2 & Hcr).
  rewrite insertTextM_run.
  destruct selectInserted; cbn zeta;
    rewrite setSelectionM_ok
      by (rewrite ?(value_set_value_noCR _ _ Hnew); lia);
    unfold selected; rewrite (value_set_value_noCR _ _ Hnew); reflexivity.
Qed.

Lemma len_selectedText t :
  wf t -> len (selectedText t) = selectionEnd t - selectionStart t.
Proof. intros (H1 & H2 & Hcr). apply len_substring_range; lia. Qed.

Lemma len_wrapped t prefix suffix :
  wf t ->
  len (wrapped t prefix suffix)
  = selectionStart t + (len prefix + len (selectedText t) + len suffix)
    + (len (value t) - selectionEnd t).
Proof.
  intros Hwf. pose proof (len_selectedText t Hwf). destruct Hwf as (H1 & H2 & Hcr).
  unfold wrapped.
  rewrite !len_append, len_substring_range, len_substring_suffix by lia. lia.
Qed.

(** [wrapSelection] with prefix and suffix present, likewise. *)
Lemma wrapSelectionM_run t (prefix suffix : string) (selectWrapped : bool) :
  let range := wrapRange t prefix suffix selectWrapped in
  wrapSelectionM (Some prefix) (Some suffix) selectWrapped t
  = match setSelectionM (ofZ (fst range)) (Some (ofZ (snd range))) true
            (set_value (wrapped t prefix suffix) t) with
    | (inl e, t') => (inl e, t')
    | (inr _, t') =>
        (inr {| newStart := fst range; newEnd := snd range; modified := true |},
         t')
    end.
Proof.
  unfold wrapSelectionM, getSelectionM, bind at 1 2 3 4 5 6 7 8, required,
    ret, read, write.
  cbn [start end_ text hasSelection].
  fold (selectedText t). fold (wrapped t prefix suffix).
  unfold wrapRange. rewrite negb_involutive.
  destruct (selectionStart t =? selectionEnd t);
    [|destruct selectWrapped]; cbn zeta; cbn [fst snd]; unfold bind;
    match goal with
    | |- context [setSelectionM ?a ?b ?c ?d] =>
        destruct (setSelectionM a b c d) as [[e|u] t1]
    end; reflexivity.
Qed.

Lemma wrapSelectionM_ok t (prefix suffix : string) (selectWrapped : bool) :
  wf t -> noCR prefix -> noCR suffix ->
  wrapSelectionM (Some prefix) (Some suffix) selectWrapped t
  = (inr {| newStart := fst (wrapRange t prefix suffix selectWrapped);
            newEnd := snd (wrapRange t prefix suffix selectWrapped);
            modified := true |},
     {| value := wrapped t prefix suffix;
        selectionStart := fst (wrapRange t prefix suffix selectWrapped);
        selectionEnd := snd (wrapRange t prefix suffix selectWrapped);
        focused := true |}).
Proof.
  intros Hwf Hp Hs. pose proof (len_wrapped t prefix suffix Hwf) as Hlen.
  pose proof (noCR_wrapped t prefix suffix Hwf Hp Hs) as Hnew.
  pose proof (len_selectedText t Hwf) as Hsel.
  pose proof (len_nonneg prefix). pose proof (len_nonneg suffix).
  destruct Hwf as (H1 & H2 & Hcr).
  rewrite wrapSelectionM_run. cbn zeta.
  unfold wrapRange.
  destruct (selectionStart t =? selectionEnd t) eqn:E;
    [apply Z.eqb_eq in E | apply Z.eqb_neq in E; destruct selectWrapped];
    cbn [fst snd];
    rewrite setSelectionM_ok
      by (rewrite ?(value_set_value_noCR _ _ Hnew), ?len_append; lia);
    unfold selected; rewrite (value_set_value_noCR _ _ Hnew); reflexivity.
Qed.

Lemma insertTextM_modified text selectInserted t r t' :
  insertTextM text selectInserted t = (inr r, t') -> modified r = true.
Proof.
  unfold insertTextM, bind at 1 2 3 4 5, required, throw, ret, read, write.
  destruct text as [text|]; [|discriminate].
  destruct selectInserted; cbn zeta; unfold bind;
    match goal with
    | |- context [setSelectionM ?a ?b ?c ?d] =>
        destruct (setSelectionM a b c d) as [[e|u] t1]
    end; intros H; inversion H; reflexivity.
Qed.

(** On a textarea with a valid selection, [insertText] and [wrapSelection]
    with their arguments present return: run the call to its closed form. *)
Ltac run_on_valid :=
  unfold insertText, wrapSelection, withTextarea;
  first [rewrite insertTextM_ok by first [assumption | reflexivity]
        | rewrite wrapSelectionM_ok by first [assumption | reflexivity]];
  eexists; eexists; split; [reflexivity|].

End CursorManagerFacts.

(* ================================================================== *)
(** ** Properties of the cursor manager and of the wiki-link notation *)

Import JsStringFacts JsNumberFacts DomFacts CursorManagerFacts.




(** C2 as stated fails: the text may be any string, and a carriage return
    typed between the letters of "ab" is read back as a line feed, so the new
    value is not value[0:start] + text + value[end:]. *)
Lemma insertText_cr_not_verbatim :
  wf ab
  /\ insertText (Some ab) (Some cr) false
     = (inr {| newStart := 2; newEnd := 2; modified := true |},
        Some {| value := String "a" (String LF "b"); selectionStart := 2;
                selectionEnd := 2; focused := true |})
  /\ ~ (exists r t',
           insertText (Some ab) (Some cr) false = (inr r, Some t')
           /\ value t'
              = substring (value ab) 0 (Some (selectionStart ab))
                ++ cr ++ substring (value ab) (selectionEnd ab) None).
Proof.
  split; [apply wfb_wf; reflexivity|]. split; [reflexivity|].
  intros (r & t' & Hrun & Hval).
  vm_compute in Hrun. inversion Hrun; subst t'. discriminate Hval.
Qed.

(** C2, amended. For every textarea with a valid selection and every text
    that holds no carriage return, insertText replaces the selected span: the
    new value is value[0:start] + text + value[end:], and what was before the
    selection and what was after it are read back unchanged from the new
    value.  For every text, the value after a call that returns is
    value[0:start] + text + value[end:] with its line breaks as the textarea
    keeps them. *)
Theorem insertText_replaces_selection :
  forall (t : HTMLTextAreaElement) (text : string) (selectInserted : bool),
    wf t ->
    (noCR text ->
     exists r t',
       insertText (Some t) (Some text) selectInserted = (inr r, Some t')
       /\ value t'
          = substring (value t) 0 (Some (selectionStart t))
            ++ text ++ substring (value t) (selectionEnd t) None
       /\ substring (value t') 0 (Some (selectionStart t))
          = substring (value t) 0 (Some (selectionStart t))
       /\ substring (value t') (selectionStart t + len text) None
          = substring (value t) (selectionEnd t) None)
    /\ (forall r t',
           insertText (Some t) (Some text) selectInserted = (inr r, Some t') ->
           value t'
           = normalizeNewlines
               (substring (value t) 0 (Some (selectionStart t))
                ++ text ++ substring (value t) (selectionEnd t) None)).
Proof.
  intros t text selectInserted Hwf. split.
  - intros Htext. run_on_valid.
    cbn [value]. unfold inserted.
    destruct Hwf as (H1 & H2 & Hcr).
    set (before := substring (value t) 0 (Some (selectionStart t))).
    set (after := substring (value t) (selectionEnd t) None).
    assert (Hb : len before = selectionStart t)
      by (unfold before; rewrite len_substring_range; lia).
    split; [apply append_assoc|]. split.
    + rewrite append_assoc, <- Hb. apply substring_app_prefix.
    + rewrite <- Hb, <- len_append. apply substring_app_suffix.
  - intros r t'. unfold insertText, withTextarea.
    rewrite insertTextM_run. cbv zeta.
    destruct (setSelectionM _ _ true _) as [[e|[]] t1] eqn:E; [discriminate|].
    intros Hrun; inversion Hrun; subst r t'. clear Hrun.
    apply setSelectionM_integers_return in E. destruct E as (_ & _ & ->).
    cbn [selected value]. rewrite value_set_value. unfold inserted.
    now rewrite append_assoc.
Qed.

Lemma insertText_replaces_selection_witness :
  exists r t',
    insertText (Some helloWorld) (Some "Rocq") false = (inr r, Some t')
    /\ value t' = "Hello Rocq".
Proof.
  destruct (proj1 (insertText_replaces_selection helloWorld "Rocq" false
                     (proj1 (wfb_wf helloWorld) eq_refl)))
    as (r & t' & Hrun & Hval & _).
  - reflexivity.
  - exists r, t'. split; [exact Hrun | exact Hval].
Defined.

(** C3 as stated fails: on "Hello World" with "World" selected, wrapping in
    "**" without selectWrapped does not leave the caret at 16. *)
Lemma wrapSelection_helloWorld_not_16 :
  ~ (exists r t',
        wrapSelection (Some helloWorld) (Some "**") (Some "**") false
        = (inr r, Some t')
        /\ value t' = "Hello **World**"
        /\ newStart r = 16 /\ newEnd r = 16).
Proof.
  intros (r & t' & Hrun & _ & Hstart & _).
  vm_compute in Hrun. inversion Hrun; subst r. discriminate Hstart.
Qed.

(** C3, amended. On "Hello World" with "World" selected, wrapping in "**"
    gives "Hello **World**"; without selectWrapped the caret is collapsed at
    15, which is 6 + length("**World**") and the end of the new value; with
    selectWrapped the selection is from 8 to 13. *)
Theorem wrapSelection_helloWorld :
  wrapSelection (Some helloWorld) (Some "**") (Some "**") false
  = (inr {| newStart := 15; newEnd := 15; modified := true |},
     Some {| value := "Hello **World**"; selectionStart := 15;
             selectionEnd := 15; focused := true |})
  /\ 6 + len "**World**" = 15
  /\ len "Hello **World**" = 15
  /\ wrapSelection (Some helloWorld) (Some "**") (Some "**") true
     = (inr {| newStart := 8; newEnd := 13; modified := true |},
        Some {| value := "Hello **World**"; selectionStart := 8;
                selectionEnd := 13; focused := true |}).
Proof. repeat split. Qed.

(** C4 as stated fails: the call reports newStart and newEnd, and taking
    length(prefix) characters away at newStart and length(suffix) characters
    away before newEnd does not give the original value back: with the
    selection kept it gives "Hello **r**", and with the caret after the
    wrapper newStart is the end of the value, where no character is left to
    take away.  With the line break CR LF as prefix the call gives no range
    at all. *)
Lemma wrapSelection_reported_range_no_round_trip :
  wf helloWorld
  /\ (exists r t',
         wrapSelection (Some helloWorld) (Some "**") (Some "**") true
         = (inr r, Some t')
         /\ removeWrapper (value t') (newStart r) (newEnd r) (len "**") (len "**")
            = "Hello **r**"
         /\ removeWrapper (value t') (newStart r) (newEnd r) (len "**") (len "**")
            <> value helloWorld)
  /\ (exists r t',
         wrapSelection (Some helloWorld) (Some "**") (Some "**") false
         = (inr r, Some t')
         /\ newStart r = len (value t')
         /\ removeWrapper (value t') (newStart r) (newEnd r) (len "**") (len "**")
            <> value helloWorld)
  /\ ~ (exists r t',
           wrapSelection (Some helloWorld) (Some crlf) (Some "") true
           = (inr r, Some t')).
Proof.
  split; [apply wfb_wf; reflexivity|]. split; [|split].
  - eexists; eexists. split; [reflexivity|]. split; [reflexivity|].
    vm_compute. discriminate.
  - eexists; eexists. split; [reflexivity|]. split; [reflexivity|].
    vm_compute. discriminate.
  - intros (r & t' & Hrun). vm_compute in Hrun. discriminate Hrun.
Qed.

(** C4, amended. For every textarea with a valid selection and every prefix
    and suffix that hold no carriage return, wrapSelection wraps the span that
    starts at the original start and ends length(prefix + text + suffix)
    later; taking length(prefix) characters away at that start and
    length(suffix) characters away before that end gives the original value
    back, with the original selected text in the span.  The returned range
    tells the span in part: its start is newStart - length(prefix) and its end
    newEnd + length(suffix) when the caret or the selection is put inside the
    wrapper, and its end is newEnd when the caret is put after it. *)
Theorem wrapSelection_round_trip :
  forall (t : HTMLTextAreaElement) (prefix suffix : string) (selectWrapped : bool),
    wf t -> noCR prefix -> noCR suffix ->
    exists r t',
      wrapSelection (Some t) (Some prefix) (Some suffix) selectWrapped
      = (inr r, Some t')
      /\ let wrapStart := selectionStart t in
         let wrapEnd :=
           wrapStart + len ((prefix ++ selectedText t) ++ suffix) in
         removeWrapper (value t') wrapStart wrapEnd (len prefix) (len suffix)
         = value t
         /\ substring (value t') (wrapStart + len prefix)
              (Some (wrapEnd - len suffix))
            = selectedText t
         /\ substring (value t') wrapStart (Some wrapEnd)
            = (prefix ++ selectedText t) ++ suffix
         /\ (selectionStart t = selectionEnd t \/ selectWrapped = true ->
             wrapStart = newStart r - len prefix
             /\ wrapEnd = newEnd r + len suffix)
         /\ (selectionStart t <> selectionEnd t -> selectWrapped = false ->
             wrapEnd = newEnd r).
Proof.
  intros t prefix suffix selectWrapped Hwf Hprefix Hsuffix.
  run_on_valid.
  cbn [value newStart newEnd]. cbv zeta.
  pose proof (len_selectedText t Hwf) as Hsel.
  pose proof (len_nonneg prefix) as Hp. pose proof (len_nonneg suffix) as Hs.
  destruct Hwf as (H1 & H2 & Hcr).
  set (before := substring (value t) 0 (Some (selectionStart t))).
  set (after := substring (value t) (selectionEnd t) None).
  assert (Hb : len before = selectionStart t)
    by (unfold before; rewrite len_substring_range; lia).
  assert (Hsplit : before ++ selectedText t ++ after = value t)
    by (apply substring_split; lia).
  assert (Hw : wrapped t prefix suffix
               = before ++ prefix ++ selectedText t ++ suffix ++ after)
    by (unfold wrapped; fold before; fold after; now rewrite !append_assoc).
  assert (Hinner :
            substring (wrapped t prefix suffix) (selectionStart t + len prefix)
              (Some (selectionStart t
                     + len ((prefix ++ selectedText t) ++ suffix) - len suffix))
            = selectedText t).
  { rewrite Hw, <- (append_assoc before prefix), <- Hb, <- len_append.
    replace (len before + len ((prefix ++ selectedText t) ++ suffix) - len suffix)
      with (len (before ++ prefix) + len (selectedText t))
      by (rewrite !len_append; lia).
    apply substring_app_middle. }
  split; [|split; [exact Hinner|split; [|split]]].
  - unfold removeWrapper. rewrite Hinner.
    rewrite Hw at 1. rewrite <- Hb at 1. rewrite substring_app_prefix.
    replace (wrapped t prefix suffix)
      with ((before ++ (prefix ++ selectedText t) ++ suffix) ++ after)
      by (rewrite Hw, !append_assoc; reflexivity).
    rewrite <- Hb, <- len_append, substring_app_suffix.
    now rewrite append_assoc.
  - unfold wrapped. fold before; fold after.
    rewrite append_assoc, <- Hb. apply substring_app_middle.
  - unfold wrapRange. intros [E|E].
    + rewrite (proj2 (Z.eqb_eq _ _) E). cbn [fst snd].
      rewrite !len_append. lia.
    + subst selectWrapped.
      destruct (Z.eqb_spec (selectionStart t) (selectionEnd t)); cbn [fst snd];
        rewrite !len_append; lia.
  - unfold wrapRange. intros E ->.
    rewrite (proj2 (Z.eqb_neq _ _) E). reflexivity.
Qed.

Lemma wrapSelection_round_trip_witness :
  exists r t',
    wrapSelection (Some helloWorld) (Some "**") (Some "__") false
    = (inr r, Some t')
    /\ removeWrapper (value t') 6 15 2 2 = "Hello World".
Proof.
  destruct (wrapSelection_round_trip helloWorld "**" "__" false)
    as (r & t' & Hrun & Hback & _).
  - apply wfb_wf. reflexivity.
  - reflexivity.
  - reflexivity.
  - exists r, t'. split; [exact Hrun | exact Hback].
Defined.

(** C5 as stated fails: with "World" selected in "Hello World", inserting the
    empty string does not leave the content unchanged. *)
Lemma insertText_empty_changes_content :
  wf helloWorld
  /\ ~ (exists r t',
           insertText (Some helloWorld) (Some "") false = (inr r, Some t')
           /\ value t' = value helloWorld
           /\ selectionStart t' = selectionStart helloWorld
           /\ selectionEnd t' = selectionStart helloWorld).
Proof.
  split; [apply wfb_wf; reflexivity|].
  intros (r & t' & Hrun & Hval & _).
  vm_compute in Hrun. inversion Hrun; subst t'. discriminate Hval.
Qed.

(** C5, amended. For every textarea with a valid selection, inserting the
    empty string removes the selected text, so that the content becomes
    value[0:start] + value[end:], and collapses the selection to a caret at
    start; the content is unchanged when the selection was a caret. *)
Theorem insertText_empty :
  forall (t : HTMLTextAreaElement) (selectInserted : bool),
    wf t ->
    exists r t',
      insertText (Some t) (Some "") selectInserted = (inr r, Some t')
      /\ value t'
         = substring (value t) 0 (Some (selectionStart t))
           ++ substring (value t) (selectionEnd t) None
      /\ selectionStart t' = selectionStart t
      /\ selectionEnd t' = selectionStart t
      /\ (selectionStart t = selectionEnd t -> value t' = value t)
      /\ (selectionStart t < selectionEnd t -> len (value t') < len (value t)).
Proof.
  intros t selectInserted Hwf.
  run_on_valid.
  cbn [value selectionStart selectionEnd].
  pose proof (len_inserted t "" Hwf) as Hlen.
  destruct Hwf as (H1 & H2 & Hcr).
  change (len "") with 0 in *.
  split; [apply inserted_empty|]. split; [destruct selectInserted; lia|].
  split; [lia|]. split.
  - intros E.
    apply inserted_empty_caret; [exact (conj H1 (conj H2 Hcr)) | exact E].
  - intros E. lia.
Qed.

Lemma insertText_empty_witness :
  exists r t',
    insertText (Some helloWorld) (Some "") false = (inr r, Some t')
    /\ value t' = "Hello " /\ selectionStart t' = 6 /\ selectionEnd t' = 6.
Proof.
  destruct (insertText_empty helloWorld false)
    as (r & t' & Hrun & Hval & Hs & He & _).
  - apply wfb_wf. reflexivity.
  - exists r, t'. repeat split; assumption.
Defined.

(** C6.  The claim does not hold of the code.  insertText and wrapSelection
    assign the new value before they hand the new range to setSelection, and
    they count the range with the text as it was given, while the textarea
    keeps one line feed for a CR LF.  On "Hello World" with "World" selected,
    insertText of CR LF and wrapSelection with the prefix CR LF throw after
    the value and the selection have changed.  Whenever one of the two throws
    with its arguments present, setSelection has refused the range and the
    textarea is the one the assignment left.  What the claim says does hold
    of setSelection, of the checks of the arguments, and of texts without a
    carriage return, with which the two methods do not throw on a textarea
    with a valid selection; and a call that returns leaves a valid selection,
    which is the range returned. *)
Theorem throw_after_assignment :
  (exists t',
      insertText (Some helloWorld) (Some crlf) false
      = (inl SetSelectionStartExceeds, Some t')
      /\ value t' = String.append "Hello " (String LF "")
      /\ t' <> helloWorld)
  /\ (exists t',
         wrapSelection (Some helloWorld) (Some crlf) (Some "") true
         = (inl SetSelectionEndExceeds, Some t')
         /\ value t' = String.append "Hello " (String LF "World")
         /\ t' <> helloWorld)
  /\ (forall t text selectInserted e t',
         insertText (Some t) (Some text) selectInserted = (inl e, t') ->
         t' = Some (set_value (inserted t text) t) /\ kind e = InvalidRange)
  /\ (forall t prefix suffix selectWrapped e t',
         wrapSelection (Some t) (Some prefix) (Some suffix) selectWrapped
         = (inl e, t') ->
         t' = Some (set_value (wrapped t prefix suffix) t)
         /\ kind e = InvalidRange)
  /\ (forall textarea start end_ focus e t',
         setSelection textarea start end_ focus = (inl e, t') -> t' = textarea)
  /\ (forall textarea text selectInserted e t',
         textarea = None \/ text = None ->
         insertText textarea text selectInserted = (inl e, t') -> t' = textarea)
  /\ (forall textarea prefix suffix selectWrapped e t',
         textarea = None \/ prefix = None \/ suffix = None ->
         wrapSelection textarea prefix suffix selectWrapped = (inl e, t') ->
         t' = textarea)
  /\ (forall t text selectInserted,
         wf t -> noCR text ->
         ~ fails (insertText (Some t) (Some text) selectInserted))
  /\ (forall t prefix suffix selectWrapped,
         wf t -> noCR prefix -> noCR suffix ->
         ~ fails (wrapSelection (Some t) (Some prefix) (Some suffix)
                    selectWrapped))
  /\ (forall t text selectInserted r t',
         insertText (Some t) text selectInserted = (inr r, t') ->
         exists t1, t' = Some t1 /\ wf t1
                    /\ selectionStart t1 = newStart r
                    /\ selectionEnd t1 = newEnd r)
  /\ (forall t prefix suffix selectWrapped r t',
         wrapSelection (Some t) prefix suffix selectWrapped = (inr r, t') ->
         exists t1, t' = Some t1 /\ wf t1
                    /\ selectionStart t1 = newStart r
                    /\ selectionEnd t1 = newEnd r).
Proof.
  split; [eexists; repeat split; vm_compute; discriminate|].
  split; [eexists; repeat split; vm_compute; discriminate|].
  unfold setSelection, insertText, wrapSelection, withTextarea.
  repeat apply conj.
  - intros t text selectInserted e t'. rewrite insertTextM_run. cbv zeta.
    destruct (setSelectionM _ _ true _) as [[e1|[]] t1] eqn:E; [|discriminate].
    intros Hrun; inversion Hrun; subst e1 t'.
    apply setSelectionM_throw in E. destruct E as [-> He]. now split.
  - intros t prefix suffix selectWrapped e t'.
    rewrite wrapSelectionM_run. cbv zeta.
    destruct (setSelectionM _ _ true _) as [[e1|[]] t1] eqn:E; [|discriminate].
    intros Hrun; inversion Hrun; subst e1 t'.
    apply setSelectionM_throw in E. destruct E as [-> He]. now split.
  - intros [t|] start end_ focus e t'; [|congruence].
    destruct (setSelectionM start end_ focus t) as [r t1] eqn:E.
    intros Hrun; inversion Hrun; subst.
    apply setSelectionM_throw in E. now destruct E as [-> _].
  - intros [t|] [text|] selectInserted e t' [H|H]; try discriminate H;
      cbn; congruence.
  - intros [t|] [prefix|] [suffix|] selectWrapped e t' [H|[H|H]];
      try discriminate H; cbn; congruence.
  - intros t text selectInserted Hwf Htext.
    rewrite insertTextM_ok by assumption. cbn. tauto.
  - intros t prefix suffix selectWrapped Hwf Hp Hs.
    rewrite wrapSelectionM_ok by assumption. cbn. tauto.
  - intros t [text|] selectInserted r t'; [|cbn; discriminate].
    rewrite insertTextM_run. cbv zeta.
    destruct (setSelectionM _ _ true _) as [[e1|[]] t1] eqn:E; [discriminate|].
    intros Hrun; inversion Hrun; subst r t'. clear Hrun.
    apply setSelectionM_integers_return in E. destruct E as (Hab & Hb & ->).
    eexists; split; [reflexivity|].
    split; [|split; reflexivity].
    apply wf_selected; try assumption.
    rewrite value_set_value. apply noCR_normalizeNewlines.
  - intros t [prefix|] [suffix|] selectWrapped r t'; try (cbn; discriminate).
    rewrite wrapSelectionM_run. cbv zeta.
    destruct (setSelectionM _ _ true _) as [[e1|[]] t1] eqn:E; [discriminate|].
    intros Hrun; inversion Hrun; subst r t'. clear Hrun.
    apply setSelectionM_integers_return in E. destruct E as (Hab & Hb & ->).
    eexists; split; [reflexivity|].
    split; [|split; reflexivity].
    apply wf_selected; try assumption.
    rewrite value_set_value. apply noCR_normalizeNewlines.
Qed.

Lemma throw_after_assignment_witness :
  snd (insertText (Some helloWorld) (Some crlf) false)
  = Some (set_value (inserted helloWorld crlf) helloWorld)
  /\ set_value (inserted helloWorld crlf) helloWorld <> helloWorld
  /\ snd (insertText (Some helloWorld) None false) = Some helloWorld
  /\ snd (wrapSelection (Some helloWorld) (Some "**") None false)
     = Some helloWorld
  /\ ~ fails (insertText (Some helloWorld) (Some "Rocq") false)
  /\ ~ fails (wrapSelection (Some helloWorld) (Some "**") (Some "**") true).
Proof.
  destruct throw_after_assignment
    as (_ & _ & Hins & _ & _ & Hnull & Hnull' & Hfree & Hfree' & _).
  split; [|split; [|split; [|split; [|split]]]].
  - apply (Hins helloWorld crlf false SetSelectionStartExceeds). reflexivity.
  - vm_compute. discriminate.
  - apply (Hnull (Some helloWorld) None false InsertTextTextRequired);
      [right|]; reflexivity.
  - apply (Hnull' (Some helloWorld) (Some "**") None false
             WrapSelectionSuffixRequired); [right; right|]; reflexivity.
  - apply Hfree; [apply wfb_wf|]; reflexivity.
  - apply Hfree'; [apply wfb_wf| |]; reflexivity.
Defined.




(** C8. insertText fails, with an error of the argument kind, when the text
    is null or undefined, and does not throw for the empty string; wrapSelection
    fails, with an error of the argument kind, when the prefix or the suffix is
    null or undefined, and accepts an empty prefix and suffix, which write the
    selected text back where it was: the content is unchanged. *)
Theorem null_arguments_rejected :
  forall t : HTMLTextAreaElement,
    (forall selectInserted,
        insertText (Some t) None selectInserted
        = (inl InsertTextTextRequired, Some t))
    /\ kind InsertTextTextRequired = InvalidArgument
    /\ (wf t -> forall selectInserted,
           exists r t',
             insertText (Some t) (Some "") selectInserted = (inr r, Some t'))
    /\ (forall suffix selectWrapped,
           wrapSelection (Some t) None suffix selectWrapped
           = (inl WrapSelectionPrefixRequired, Some t))
    /\ (forall prefix selectWrapped,
           wrapSelection (Some t) (Some prefix) None selectWrapped
           = (inl WrapSelectionSuffixRequired, Some t))
    /\ kind WrapSelectionPrefixRequired = InvalidArgument
    /\ kind WrapSelectionSuffixRequired = InvalidArgument
    /\ (wf t -> forall selectWrapped,
           exists r t',
             wrapSelection (Some t) (Some "") (Some "") selectWrapped
             = (inr r, Some t')
             /\ value t' = inserted t (selectedText t)
             /\ value t' = value t).
Proof.
  intros t. repeat split.
  - intros Hwf selectInserted. unfold insertText, withTextarea.
    rewrite insertTextM_ok by first [assumption | reflexivity]. eauto.
  - intros Hwf selectWrapped. run_on_valid. cbn [value].
    assert (E : wrapped t "" "" = inserted t (selectedText t))
      by (unfold wrapped, inserted; cbn [append];
          now rewrite (append_nil_r (selectedText t))).
    split; [exact E|]. rewrite E. unfold inserted, selectedText.
    rewrite append_assoc. destruct Hwf as (H1 & H2 & Hcr).
    apply substring_split; lia.
Qed.

Lemma null_arguments_rejected_witness :
  (exists r t',
      insertText (Some helloWorld) (Some "") false = (inr r, Some t'))
  /\ (exists r t',
         wrapSelection (Some helloWorld) (Some "") (Some "") true
         = (inr r, Some t')
         /\ value t' = "Hello World").
Proof.
  destruct (null_arguments_rejected helloWorld)
    as (_ & _ & Hins & _ & _ & _ & _ & Hwrap).
  split.
  - apply Hins. apply wfb_wf. reflexivity.
  - destruct (Hwrap (proj1 (wfb_wf helloWorld) eq_refl) true)
      as (r & t' & Hrun & _ & Hval).
    exists r, t'. split; [exact Hrun | exact Hval].
Defined.

(** C9. parse of "Check [[Aragorn|Hero#appearance]] today" yields one match,
    with target "Aragorn", display "Hero", section "appearance" and raw
    "[[Aragorn|Hero#appearance]]". *)
Theorem parse_aragorn :
  exists m,
    WikiLink.parse "Check [[Aragorn|Hero#appearance]] today" = [m]
    /\ WikiLink.target (WikiLink.data m) = "Aragorn"
    /\ WikiLink.display (WikiLink.data m) = "Hero"
    /\ WikiLink.section (WikiLink.data m) = Some "appearance"
    /\ WikiLink.raw (WikiLink.data m) = "[[Aragorn|Hero#appearance]]".
Proof. eexists. split; [vm_compute; reflexivity|]. repeat split. Qed.

(** C10. Every call of insertText, and so of replaceSelection, that returns,
    returns a result whose modified field is true; so it does when the text is
    empty and nothing is selected, where the value after the call is the value
    before it. *)
Theorem insertText_modified_always :
  (forall textarea text selectInserted r t',
      insertText textarea text selectInserted = (inr r, t') ->
      modified r = true)
  /\ (forall textarea replacement r t',
         replaceSelection textarea replacement = (inr r, t') ->
         modified r = true)
  /\ (forall t selectInserted,
         wf t -> selectionStart t = selectionEnd t ->
         exists r t',
           insertText (Some t) (Some "") selectInserted = (inr r, Some t')
           /\ value t' = value t /\ modified r = true).
Proof.
  assert (H : forall textarea text selectInserted r t',
             insertText textarea text selectInserted = (inr r, t') ->
             modified r = true).
  { intros [t|] text selectInserted r t'; unfold insertText, withTextarea;
      [|discriminate].
    destruct (insertTextM text selectInserted t) as [res t1] eqn:E.
    intros H'; inversion H'; subst.
    eapply insertTextM_modified; eassumption. }
  split; [exact H|]. split.
  - intros textarea replacement r t'. unfold replaceSelection. apply H.
  - intros t selectInserted Hwf Hcaret.
    run_on_valid. cbn [value modified].
    split; [now apply inserted_empty_caret | reflexivity].
Qed.

Lemma insertText_modified_always_witness :
  modified {| newStart := 10; newEnd := 10; modified := true |} = true
  /\ (exists r t',
         insertText (Some abc) (Some "") false = (inr r, Some t')
         /\ value t' = "abc" /\ modified r = true).
Proof.
  destruct insertText_modified_always as (Hmod & _ & Hsame).
  split.
  - apply (Hmod (Some helloWorld) (Some "Rocq") false _
             (Some {| value := "Hello Rocq"; selectionStart := 10;
                      selectionEnd := 10; focused := true |})).
    reflexivity.
  - apply (Hsame abc false).
    + apply wfb_wf. reflexivity.
    + reflexivity.
Defined.

(* ================================================================== *)
(** ** Facts about the three pieces of a textarea *)

Module ViewFacts.

Import View.

Lemma wf_zipper B X A f :
  noCR B -> noCR X -> noCR A -> wf (zipper B X A f).
Proof.
  intros HB HX HA. unfold wf, zipper; cbn. rewrite !len_append.
  pose proof (len_nonneg B); pose proof (len_nonneg X);
    pose proof (len_nonneg A).
  repeat split; try lia. now repeat apply noCR_append.
Qed.

Lemma textBefore_zipper B X A f : textBefore (zipper B X A f) = B.
Proof. unfold textBefore, zipper; cbn. apply substring_app_prefix. Qed.

Lemma selectedText_zipper B X A f : selectedText (zipper B X A f) = X.
Proof. unfold selectedText, zipper; cbn. apply substring_app_middle. Qed.

Lemma textAfter_zipper B X A f : textAfter (zipper B X A f) = A.
Proof.
  unfold textAfter, zipper; cbn.
  rewrite <- len_append, <- append_assoc. apply substring_app_suffix.
Qed.

(** Every textarea with a valid selection is the zipper of its pieces. *)
Lemma zipper_of_wf t :
  wf t ->
  t = zipper (textBefore t) (selectedText t) (textAfter t) (focused t).
Proof.
  intros Hwf. pose proof (len_selectedText t Hwf) as Hsel.
  destruct Hwf as (H1 & H2 & Hcr). destruct t as [v s e f]; cbn in *.
  unfold zipper, textBefore, selectedText, textAfter in *; cbn in *.
  rewrite Hsel, len_substring_range by lia.
  rewrite substring_split by lia. f_equal; lia.
Qed.

(** Its pieces hold no carriage return. *)
Lemma noCR_pieces t :
  wf t -> noCR (textBefore t) /\ noCR (selectedText t) /\ noCR (textAfter t).
Proof.
  intros (_ & _ & Hcr). unfold textBefore, selectedText, textAfter.
  repeat split; now apply noCR_substring.
Qed.

(** Strings put together from strings without carriage return. *)
Ltac no_cr :=
  repeat apply noCR_append; first [assumption | reflexivity].

Lemma len_zero_empty (s : string) : len s = 0 <-> s = "".
Proof.
  split; [|now intros ->]. destruct s; [reflexivity|].
  unfold len; cbn [String.length]. lia.
Qed.

Lemma insertText_zipper B X A f (text : string) (selectInserted : bool) :
  noCR B -> noCR X -> noCR A -> noCR text ->
  insertText (Some (zipper B X A f)) (Some text) selectInserted
  = (inr {| newStart := if selectInserted then len B else len B + len text;
            newEnd := len B + len text; modified := true |},
     Some (if selectInserted then zipper B text A true
           else zipper (B ++ text) "" A true)).
Proof.
  intros HB HX HA Htext. unfold insertText, withTextarea.
  rewrite insertTextM_ok by (try apply wf_zipper; assumption).
  fold (textBefore (zipper B X A f)). unfold inserted.
  fold (textBefore (zipper B X A f)) (textAfter (zipper B X A f)).
  rewrite textBefore_zipper, textAfter_zipper.
  cbn [selectionStart zipper].
  destruct selectInserted; unfold zipper; rewrite ?len_append, ?append_assoc;
    cbn [append]; change (len "") with 0; rewrite ?Z.add_0_r; reflexivity.
Qed.

Lemma wrapSelection_zipper B X A f (prefix suffix : string)
    (selectWrapped : bool) :
  noCR B -> noCR X -> noCR A -> noCR prefix -> noCR suffix ->
  wrapSelection (Some (zipper B X A f)) (Some prefix) (Some suffix) selectWrapped
  = (if String.eqb X "" then
       (inr {| newStart := len B + len prefix; newEnd := len B + len prefix;
               modified := true |},
        Some (zipper (B ++ prefix) "" (suffix ++ A) true))
     else if selectWrapped then
       (inr {| newStart := len B + len prefix;
               newEnd := len B + len prefix + len X; modified := true |},
        Some (zipper (B ++ prefix) X (suffix ++ A) true))
     else
       (inr {| newStart := len B + len ((prefix ++ X) ++ suffix);
               newEnd := len B + len ((prefix ++ X) ++ suffix);
               modified := true |},
        Some (zipper (B ++ (prefix ++ X) ++ suffix) "" A true))).
Proof.
  intros HB HX HA Hp Hs. unfold wrapSelection, withTextarea.
  rewrite wrapSelectionM_ok by (try apply wf_zipper; assumption).
  unfold wrapped, wrapRange.
  fold (textBefore (zipper B X A f)) (textAfter (zipper B X A f)).
  rewrite textBefore_zipper, textAfter_zipper, selectedText_zipper.
  cbn [selectionStart selectionEnd zipper].
  pose proof (len_nonneg X) as HXlen.
  destruct (String.eqb_spec X "") as [->|HXne].
  - change (len "") with 0. rewrite Z.add_0_r, Z.eqb_refl. cbn [fst snd].
    unfold zipper. rewrite ?len_append, ?append_assoc. cbn [append].
    change (len "") with 0. rewrite ?Z.add_0_r. reflexivity.
  - assert (len X <> 0) by (intros E; apply HXne, len_zero_empty, E).
    replace (len B =? len B + len X) with false
      by (symmetry; apply Z.eqb_neq; lia).
    destruct selectWrapped; cbn [fst snd]; unfold zipper;
      rewrite ?len_append, ?append_assoc; cbn [append];
      change (len "") with 0; rewrite ?Z.add_0_r; reflexivity.
Qed.

Lemma getSelection_zipper B X A f :
  getSelection (Some (zipper B X A f))
  = (inr {| start := len B; end_ := len B + len X;
            hasSelection := negb (String.eqb X ""); text := X |},
     Some (zipper B X A f)).
Proof.
  unfold getSelection, withTextarea, getSelectionM, bind, read, ret.
  fold (selectedText (zipper B X A f)). rewrite selectedText_zipper.
  cbn [selectionStart selectionEnd zipper]. repeat f_equal.
  pose proof (len_nonneg X).
  destruct (String.eqb_spec X "") as [->|HXne].
  - change (len "") with 0. now rewrite Z.add_0_r, Z.eqb_refl.
  - assert (len X <> 0) by (intros E; apply HXne, len_zero_empty, E).
    apply Z.eqb_neq. lia.
Qed.

End ViewFacts.

(* ================================================================== *)
(** ** Further properties of the cursor manager *)

Import View ViewFacts.

(** Read a textarea with a valid selection as the zipper of its pieces. *)
Ltac as_zipper t Hwf B X A f :=
  let E := fresh "E" in
  let HB := fresh "HB" in
  let HX := fresh "HX" in
  let HA := fresh "HA" in
  pose proof (zipper_of_wf t Hwf) as E;
  pose proof (noCR_pieces t Hwf) as (HB & HX & HA);
  set (B := textBefore t) in *; set (X := selectedText t) in *;
  set (A := textAfter t) in *; set (f := focused t) in *;
  clearbody B X A f; subst t.

(** X1. getSelection leaves the textarea as it is and reports its selection:
    the offsets, a text as long as the range, and hasSelection exactly when
    that text is not empty; getSelectedText returns that text. *)
Theorem getSelection_reads :
  forall t : HTMLTextAreaElement,
    wf t ->
    exists sel,
      getSelection (Some t) = (inr sel, Some t)
      /\ start sel = selectionStart t /\ end_ sel = selectionEnd t
      /\ text sel = substring (value t) (selectionStart t) (Some (selectionEnd t))
      /\ len (text sel) = selectionEnd t - selectionStart t
      /\ (hasSelection sel = true <-> text sel <> "")
      /\ getSelectedText (Some t) = (inr (text sel), Some t).
Proof.
  intros t Hwf. as_zipper t Hwf B X A f.
  eexists. split; [apply getSelection_zipper|].
  cbn [start end_ text hasSelection selectionStart selectionEnd].
  repeat split; try reflexivity.
  - symmetry. apply selectedText_zipper.
  - cbn [zipper selectionStart selectionEnd]. lia.
  - intros H E. rewrite E in H. discriminate H.
  - intros H. destruct (String.eqb_spec X ""); [contradiction | reflexivity].
  - unfold getSelectedText. rewrite getSelection_zipper. reflexivity.
Qed.

Lemma getSelection_reads_witness :
  exists sel,
    getSelection (Some helloWorld) = (inr sel, Some helloWorld)
    /\ text sel = "World" /\ hasSelection sel = true.
Proof.
  destruct (getSelection_reads helloWorld (proj1 (wfb_wf helloWorld) eq_refl))
    as (sel & Hrun & _ & _ & Htext & _ & Hhas & _).
  exists sel. split; [exact Hrun|]. split; [exact Htext|].
  apply Hhas. rewrite Htext. discriminate.
Defined.

(** X2. insertText with selectInserted, of a text without carriage return,
    leaves the inserted text selected: the returned range starts at the old
    start, is as long as the text, and getSelectedText then returns the text;
    the textarea has the focus. *)
Theorem insertText_selects_inserted :
  forall (t : HTMLTextAreaElement) (text : string),
    wf t -> noCR text ->
    exists r t',
      insertText (Some t) (Some text) true = (inr r, Some t')
      /\ newStart r = selectionStart t
      /\ newEnd r = selectionStart t + len text
      /\ selectionStart t' = newStart r /\ selectionEnd t' = newEnd r
      /\ focused t' = true
      /\ getSelectedText (Some t') = (inr text, Some t').
Proof.
  intros t text Hwf Htext. as_zipper t Hwf B X A f.
  rewrite insertText_zipper by no_cr. eexists; eexists; split; [reflexivity|].
  cbn [newStart newEnd selectionStart selectionEnd focused zipper].
  repeat split.
  unfold getSelectedText. rewrite getSelection_zipper. reflexivity.
Qed.

Lemma insertText_selects_inserted_witness :
  exists r t',
    insertText (Some helloWorld) (Some "Rocq") true = (inr r, Some t')
    /\ newStart r = 6 /\ newEnd r = 10
    /\ getSelectedText (Some t') = (inr "Rocq", Some t').
Proof.
  destruct (insertText_selects_inserted helloWorld "Rocq"
              (proj1 (wfb_wf helloWorld) eq_refl) eq_refl)
    as (r & t' & Hrun & Hs & He & _ & _ & _ & Hget).
  exists r, t'. repeat split; assumption.
Defined.

(** X3. replaceSelection, with a replacement without carriage return, puts
    the replacement where the selection was and a collapsed caret right after
    it: what is before the caret is the old text before the selection followed
    by the replacement, what is after it is the old text after the selection,
    and nothing is selected. *)
Theorem replaceSelection_caret_after :
  forall (t : HTMLTextAreaElement) (replacement : string),
    wf t -> noCR replacement ->
    exists r t',
      replaceSelection (Some t) (Some replacement) = (inr r, Some t')
      /\ newStart r = newEnd r
      /\ selectionStart t' = newStart r /\ selectionEnd t' = newEnd r
      /\ textBefore t' = textBefore t ++ replacement
      /\ textAfter t' = textAfter t
      /\ getSelectedText (Some t') = (inr "", Some t').
Proof.
  intros t replacement Hwf Hrep. as_zipper t Hwf B X A f.
  unfold replaceSelection. rewrite insertText_zipper by no_cr.
  eexists; eexists; split; [reflexivity|].
  rewrite !textBefore_zipper, !textAfter_zipper.
  cbn [newStart newEnd selectionStart selectionEnd zipper].
  change (len "") with 0. rewrite len_append.
  repeat split; try lia.
  unfold getSelectedText. rewrite getSelection_zipper. reflexivity.
Qed.

Lemma replaceSelection_caret_after_witness :
  exists r t',
    replaceSelection (Some helloWorld) (Some "Rocq") = (inr r, Some t')
    /\ textBefore t' = "Hello Rocq" /\ textAfter t' = "".
Proof.
  destruct (replaceSelection_caret_after helloWorld "Rocq"
              (proj1 (wfb_wf helloWorld) eq_refl) eq_refl)
    as (r & t' & Hrun & _ & _ & _ & Hb & Ha & _).
  exists r, t'. repeat split; assumption.
Defined.

(** X4. With a text without carriage return, insertText changes the length
    of the value by the length of the text less the length of the selection;
    with a prefix and a suffix without carriage return, wrapSelection
    lengthens it by the lengths of the prefix and the suffix. *)
Theorem lengths_after_edit :
  forall t : HTMLTextAreaElement,
    wf t ->
    (forall (text : string) selectInserted,
        noCR text ->
        exists r t',
          insertText (Some t) (Some text) selectInserted = (inr r, Some t')
          /\ len (value t')
             = len (value t) - (selectionEnd t - selectionStart t) + len text)
    /\ (forall (prefix suffix : string) selectWrapped,
           noCR prefix -> noCR suffix ->
           exists r t',
             wrapSelection (Some t) (Some prefix) (Some suffix) selectWrapped
             = (inr r, Some t')
             /\ len (value t') = len (value t) + len prefix + len suffix).
Proof.
  intros t Hwf. split.
  - intros text selectInserted Htext. run_on_valid. cbn [value].
    rewrite len_inserted by assumption. lia.
  - intros prefix suffix selectWrapped Hp Hs. run_on_valid. cbn [value].
    rewrite len_wrapped, len_selectedText by assumption. lia.
Qed.

Lemma lengths_after_edit_witness :
  (exists r t',
      insertText (Some helloWorld) (Some "Rocq") false = (inr r, Some t')
      /\ len (value t') = 10)
  /\ (exists r t',
         wrapSelection (Some helloWorld) (Some "**") (Some "**") false
         = (inr r, Some t')
         /\ len (value t') = 15).
Proof.
  destruct (lengths_after_edit helloWorld (proj1 (wfb_wf helloWorld) eq_refl))
    as (Hins & Hwrap).
  split.
  - destruct (Hins "Rocq" false eq_refl) as (r & t' & Hrun & Hlen).
    exists r, t'. split; [exact Hrun | exact Hlen].
  - destruct (Hwrap "**" "**" false eq_refl eq_refl)
      as (r & t' & Hrun & Hlen).
    exists r, t'. split; [exact Hrun | exact Hlen].
Defined.

(** X5. An insertion with selectInserted, of a text without carriage
    return, is undone by inserting, again with selectInserted, the text that
    was selected before: the value and the selection are those before the
    first call. *)
Theorem insertText_undo :
  forall (t : HTMLTextAreaElement) (text : string),
    wf t -> noCR text ->
    exists r1 t1 r2 t2,
      insertText (Some t) (Some text) true = (inr r1, Some t1)
      /\ insertText (Some t1) (Some (selectedText t)) true = (inr r2, Some t2)
      /\ value t2 = value t
      /\ selectionStart t2 = selectionStart t
      /\ selectionEnd t2 = selectionEnd t.
Proof.
  intros t text Hwf Htext. as_zipper t Hwf B X A f.
  rewrite insertText_zipper by no_cr.
  eexists; eexists; eexists; eexists. split; [reflexivity|].
  rewrite insertText_zipper by no_cr.
  split; [reflexivity|].
  cbn [value selectionStart selectionEnd zipper]. repeat split.
Qed.

Lemma insertText_undo_witness :
  exists r1 t1 r2 t2,
    insertText (Some helloWorld) (Some "Rocq") true = (inr r1, Some t1)
    /\ insertText (Some t1) (Some "World") true = (inr r2, Some t2)
    /\ value t2 = "Hello World"
    /\ selectionStart t2 = 6 /\ selectionEnd t2 = 11.
Proof.
  destruct (insertText_undo helloWorld "Rocq"
              (proj1 (wfb_wf helloWorld) eq_refl) eq_refl)
    as (r1 & t1 & r2 & t2 & H1 & H2 & Hv & Hs & He).
  exists r1, t1, r2, t2. repeat split; assumption.
Defined.

(** X6. wrapSelection with selectWrapped, with a prefix and a suffix without
    carriage return, keeps the selected text selected: getSelectedText after
    the call returns what it returned before, and the text before the
    selection has grown by the prefix, the text after it by the suffix. *)
Theorem wrapSelection_keeps_selection :
  forall (t : HTMLTextAreaElement) (prefix suffix : string),
    wf t -> noCR prefix -> noCR suffix ->
    exists r t',
      wrapSelection (Some t) (Some prefix) (Some suffix) true = (inr r, Some t')
      /\ getSelectedText (Some t') = (inr (selectedText t), Some t')
      /\ textBefore t' = textBefore t ++ prefix
      /\ textAfter t' = suffix ++ textAfter t.
Proof.
  intros t prefix suffix Hwf Hp Hs. as_zipper t Hwf B X A f.
  rewrite wrapSelection_zipper by no_cr.
  destruct (String.eqb_spec X "") as [->|HXne];
    (eexists; eexists; split; [reflexivity|]);
    rewrite textBefore_zipper, textAfter_zipper;
    unfold getSelectedText; rewrite getSelection_zipper; repeat split.
Qed.

Lemma wrapSelection_keeps_selection_witness :
  exists r t',
    wrapSelection (Some helloWorld) (Some "**") (Some "__") true
    = (inr r, Some t')
    /\ getSelectedText (Some t') = (inr "World", Some t')
    /\ textBefore t' = "Hello **" /\ textAfter t' = "__".
Proof.
  destruct (wrapSelection_keeps_selection helloWorld "**" "__"
              (proj1 (wfb_wf helloWorld) eq_refl) eq_refl eq_refl)
    as (r & t' & Hrun & Hget & Hb & Ha).
  exists r, t'. repeat split; assumption.
Defined.

(** X7. With a prefix and a suffix without carriage return, wrapSelection
    writes the value that insertText writes for the text
    prefix + selected text + suffix; when text is selected and selectWrapped
    is off, the two calls agree on the result and on the whole textarea. *)
Theorem wrapSelection_as_insertText :
  forall (t : HTMLTextAreaElement) (prefix suffix : string)
         (selectWrapped selectInserted : bool),
    wf t -> noCR prefix -> noCR suffix ->
    exists r1 t1 r2 t2,
      wrapSelection (Some t) (Some prefix) (Some suffix) selectWrapped
      = (inr r1, Some t1)
      /\ insertText (Some t) (Some ((prefix ++ selectedText t) ++ suffix))
           selectInserted
         = (inr r2, Some t2)
      /\ value t1 = value t2
      /\ (selectionStart t <> selectionEnd t -> selectWrapped = false ->
          selectInserted = false -> r1 = r2 /\ t1 = t2).
Proof.
  intros t prefix suffix selectWrapped selectInserted Hwf Hp Hs.
  pose proof (noCR_selectedText t Hwf) as Hsel.
  unfold wrapSelection, insertText, withTextarea.
  rewrite wrapSelectionM_ok, insertTextM_ok by no_cr.
  eexists; eexists; eexists; eexists.
  split; [reflexivity|]. split; [reflexivity|]. split; [reflexivity|].
  intros Hne -> ->. unfold wrapRange.
  rewrite (proj2 (Z.eqb_neq _ _) Hne). cbn [fst snd]. split; reflexivity.
Qed.

Lemma wrapSelection_as_insertText_witness :
  wrapSelection (Some helloWorld) (Some "**") (Some "**") false
  = insertText (Some helloWorld) (Some "**World**") false.
Proof.
  destruct (wrapSelection_as_insertText helloWorld "**" "**" false false
              (proj1 (wfb_wf helloWorld) eq_refl) eq_refl eq_refl)
    as (r1 & t1 & r2 & t2 & H1 & H2 & _ & Hsame).
  destruct Hsame as [Hr Ht]; [discriminate | reflexivity | reflexivity |].
  rewrite H1. change ("**World**") with (("**" ++ selectedText helloWorld) ++ "**").
  rewrite H2, Hr, Ht. reflexivity.
Defined.

(** X8. Wrapping twice with selectWrapped nests the wrappers: with prefixes
    and suffixes without carriage return, wrapping in (p1, s1) and then in
    (p2, s2) gives the result and the textarea of one wrapping in
    (p1 + p2, s2 + s1). *)
Theorem wrapSelection_nests :
  forall (t : HTMLTextAreaElement) (p1 s1 p2 s2 : string),
    wf t -> noCR p1 -> noCR s1 -> noCR p2 -> noCR s2 ->
    exists r1 t1,
      wrapSelection (Some t) (Some p1) (Some s1) true = (inr r1, Some t1)
      /\ wrapSelection (Some t1) (Some p2) (Some s2) true
         = wrapSelection (Some t) (Some (p1 ++ p2)) (Some (s2 ++ s1)) true.
Proof.
  intros t p1 s1 p2 s2 Hwf Hp1 Hs1 Hp2 Hs2. as_zipper t Hwf B X A f.
  rewrite !wrapSelection_zipper by no_cr.
  destruct (String.eqb_spec X "") as [->|HXne];
    (eexists; eexists; split; [reflexivity|]);
    rewrite wrapSelection_zipper by no_cr; cbn [String.eqb];
    try rewrite (proj2 (String.eqb_neq X "") HXne);
    rewrite !len_append, !append_assoc, !Z.add_assoc; reflexivity.
Qed.

Lemma wrapSelection_nests_witness :
  exists r1 t1,
    wrapSelection (Some helloWorld) (Some "**") (Some "**") true
    = (inr r1, Some t1)
    /\ wrapSelection (Some t1) (Some "_") (Some "_") true
       = wrapSelection (Some helloWorld) (Some "**_") (Some "_**") true.
Proof.
  destruct (wrapSelection_nests helloWorld "**" "**" "_" "_"
              (proj1 (wfb_wf helloWorld) eq_refl) eq_refl eq_refl eq_refl
              eq_refl)
    as (r1 & t1 & H1 & H2).
  exists r1, t1. split; [exact H1 | exact H2].
Defined.

(** X9. Wrapping at a caret and then typing puts what is typed between the
    prefix and the suffix: after wrapSelection on an empty selection and
    insertText of x, none of prefix, suffix and x holding a carriage return,
    the value is before + prefix + x + suffix + after and the caret is right
    after x. *)
Theorem wrapSelection_then_type :
  forall (t : HTMLTextAreaElement) (prefix suffix x : string)
         (selectWrapped : bool),
    wf t -> selectionStart t = selectionEnd t ->
    noCR prefix -> noCR suffix -> noCR x ->
    exists r1 t1 r2 t2,
      wrapSelection (Some t) (Some prefix) (Some suffix) selectWrapped
      = (inr r1, Some t1)
      /\ insertText (Some t1) (Some x) false = (inr r2, Some t2)
      /\ value t2
         = textBefore t ++ prefix ++ x ++ suffix ++ textAfter t
      /\ newStart r2 = selectionStart t + len prefix + len x
      /\ newEnd r2 = newStart r2.
Proof.
  intros t prefix suffix x selectWrapped Hwf Hcaret Hp Hs Hx.
  as_zipper t Hwf B X A f.
  cbn [selectionStart selectionEnd zipper] in Hcaret.
  assert (X = "") as -> by (apply len_zero_empty; lia).
  rewrite wrapSelection_zipper by no_cr.
  cbn [String.eqb].
  eexists; eexists; eexists; eexists. split; [reflexivity|].
  rewrite insertText_zipper by no_cr. split; [reflexivity|].
  cbn [value newStart newEnd selectionStart zipper append].
  rewrite !len_append, !append_assoc. repeat split; lia.
Qed.

Lemma wrapSelection_then_type_witness :
  exists r1 t1 r2 t2,
    wrapSelection (Some abc) (Some "**") (Some "**") false = (inr r1, Some t1)
    /\ insertText (Some t1) (Some "bold") false = (inr r2, Some t2)
    /\ value t2 = "**bold**abc"
    /\ newStart r2 = 6.
Proof.
  destruct (wrapSelection_then_type abc "**" "**" "bold" false
              (proj1 (wfb_wf abc) eq_refl) eq_refl eq_refl eq_refl eq_refl)
    as (r1 & t1 & r2 & t2 & H1 & H2 & Hv & Hs & _).
  exists r1, t1, r2, t2. repeat split; assumption.
Defined.

(** X10. A range set by setSelection with integer offsets inside the value is
    the range getSelection reads next, with the text of the value between the
    offsets; the value is not touched, and without focus the focus is left as
    it was. *)
Theorem setSelection_then_getSelection :
  forall (t : HTMLTextAreaElement) (a b : Z) (focus : bool),
    0 <= a <= b -> b <= len (value t) ->
    exists t',
      setSelection (Some t) (ofZ a) (Some (ofZ b)) focus = (inr tt, Some t')
      /\ value t' = value t
      /\ (focus = false -> focused t' = focused t)
      /\ (focus = true -> focused t' = true)
      /\ getSelection (Some t')
         = (inr {| start := a; end_ := b; hasSelection := negb (a =? b);
                   text := substring (value t) a (Some b) |},
            Some t').
Proof.
  intros t a b focus Hab Hb. unfold setSelection, withTextarea.
  rewrite setSelectionM_ok by assumption.
  eexists. split; [reflexivity|].
  unfold selected; cbn [value focused]. repeat split.
  - now intros ->.
  - now intros ->.
Qed.

Lemma setSelection_then_getSelection_witness :
  exists t',
    setSelection (Some helloWorld) (ofZ 0) (Some (ofZ 5)) false
    = (inr tt, Some t')
    /\ getSelection (Some t')
       = (inr {| start := 0; end_ := 5; hasSelection := true;
                 text := "Hello" |}, Some t').
Proof.
  destruct (setSelection_then_getSelection helloWorld 0 5 false)
    as (t' & Hrun & _ & _ & _ & Hget).
  - lia.
  - cbn. lia.
  - exists t'. split; [exact Hrun | exact Hget].
Defined.

(** X11. Which error setSelection reports for integer offsets: a negative
    start before anything else; then a start beyond the length; with a start
    in bounds, a negative end, then an end before the start, then an end
    beyond the length. *)
Theorem setSelection_error_order :
  forall (t : HTMLTextAreaElement) (a b : Z) (focus : bool) e t',
    setSelection (Some t) (ofZ a) (Some (ofZ b)) focus = (inl e, t') ->
    (a < 0 -> e = SetSelectionStartNegative)
    /\ (0 <= a -> len (value t) < a -> e = SetSelectionStartExceeds)
    /\ (0 <= a <= len (value t) -> b < 0 -> e = SetSelectionEndNegative)
    /\ (0 <= a <= len (value t) -> 0 <= b < a ->
        e = SetSelectionEndBeforeStart)
    /\ (0 <= a <= len (value t) -> a <= b ->
        e = SetSelectionEndExceeds /\ len (value t) < b).
Proof.
  intros t a b focus e t'.
  unfold setSelection, withTextarea, setSelectionM, bind, read, throwIf,
    throw, ret, write, gt.
  rewrite !lt_ofZ.
  repeat match goal with
         | |- context [if ?c <? ?d then _ else _] => destruct (Z.ltb_spec c d)
         end;
    try (destruct focus); intros Hrun; inversion Hrun; subst;
    repeat split; intros; try reflexivity; lia.
Qed.

Lemma setSelection_error_order_witness :
  (exists e,
      setSelection (Some abc) (ofZ 2) (Some (ofZ (-1))) true = (inl e, Some abc)
      /\ e = SetSelectionEndNegative)
  /\ (exists e,
         setSelection (Some abc) (ofZ 2) (Some (ofZ 7)) true = (inl e, Some abc)
         /\ e = SetSelectionEndExceeds).
Proof.
  split.
  - eexists. split; [reflexivity|].
    apply (setSelection_error_order abc 2 (-1) true _ (Some abc) eq_refl);
      cbn; lia.
  - eexists. split; [reflexivity|].
    apply (setSelection_error_order abc 2 7 true _ (Some abc) eq_refl);
      cbn; lia.
Defined.

(** X12. setSelection lets NaN through every test: as a start, or as an end
    after a start in bounds, it does not throw, and the textarea, which reads
    NaN as 0, ends with the caret at 0.  The infinities are rejected as
    starts. *)
Theorem setSelection_nan :
  forall (t : HTMLTextAreaElement) (focus : bool),
    setSelection (Some t) NaN None focus
    = (inr tt, Some (selected t 0 0 focus))
    /\ (forall a : Z,
           0 <= a <= len (value t) ->
           setSelection (Some t) (ofZ a) (Some NaN) focus
           = (inr tt, Some (selected t 0 0 focus)))
    /\ setSelection (Some t) (Infinity false) None focus
       = (inl SetSelectionStartExceeds, Some t)
    /\ setSelection (Some t) (Infinity true) None focus
       = (inl SetSelectionStartNegative, Some t).
Proof.
  intros t focus. pose proof (len_nonneg (value t)) as Hlen.
  unfold setSelection, withTextarea, setSelectionM, bind, read, throwIf,
    throw, ret, write, gt.
  repeat split.
  - cbn [lt ofZ]. unfold setSelectionRange, selected. cbn [toUnsignedLong].
    rewrite !Z.min_l by lia. destruct focus; reflexivity.
  - intros a Ha. rewrite !lt_ofZ.
    replace (a <? 0) with false by (symmetry; apply Z.ltb_ge; lia).
    replace (len (value t) <? a) with false by (symmetry; apply Z.ltb_ge; lia).
    cbn [lt ofZ]. unfold setSelectionRange, selected.
    rewrite toUnsignedLong_ofZ. cbn [toUnsignedLong].
    replace (Z.min 0 (len (value t))) with 0 by lia.
    replace (Z.min a 0) with 0 by lia.
    destruct focus; reflexivity.
Qed.

Lemma setSelection_nan_witness :
  setSelection (Some helloWorld) (ofZ 3) (Some NaN) false
  = (inr tt, Some (selected helloWorld 0 0 false)).
Proof.
  destruct (setSelection_nan helloWorld false) as (_ & Hend & _).
  apply Hend. cbn. lia.
Defined.

(* ================================================================== *)
(** ** Facts about the utilities *)

Module UtilsFacts.

Import Utils Pattern.

Lemma backslash_special : isRegexSpecial "\" = true.
Proof. reflexivity. Qed.

Lemma not_special_not_backslash c :
  isRegexSpecial c = false -> Ascii.eqb c "\" = false.
Proof.
  intros H. destruct (Ascii.eqb_spec c "\") as [->|]; [|reflexivity].
  rewrite backslash_special in H. discriminate H.
Qed.

Lemma escapeRegex_app a b :
  escapeRegex (a ++ b) = escapeRegex a ++ escapeRegex b.
Proof.
  induction a as [|c a IH]; cbn [append escapeRegex]; [reflexivity|].
  destruct (isRegexSpecial c); cbn [append]; now rewrite IH.
Qed.

Lemma len_String c s : len (String c s) = 1 + len s.
Proof. unfold len. cbn [String.length]. lia. Qed.

Lemma countSpecial_bounds s : 0 <= countSpecial s <= len s.
Proof.
  induction s as [|c s IH]; cbn [countSpecial].
  - change (len "") with 0. lia.
  - rewrite len_String. destruct (isRegexSpecial c); lia.
Qed.

Lemma len_escapeRegex s : len (escapeRegex s) = len s + countSpecial s.
Proof.
  induction s as [|c s IH]; cbn [escapeRegex countSpecial]; [reflexivity|].
  destruct (isRegexSpecial c); rewrite !len_String, IH; lia.
Qed.

Lemma literalOf_escapeRegex_app s post y :
  literalOf post = Some y ->
  literalOf (escapeRegex s ++ post) = Some (s ++ y).
Proof.
  intros Hpost. induction s as [|c s IH]; cbn [escapeRegex append].
  - exact Hpost.
  - destruct (isRegexSpecial c) eqn:Hc; cbn [append literalOf].
    + cbn [Ascii.eqb Bool.eqb]. rewrite Hc, IH. reflexivity.
    + rewrite (not_special_not_backslash c Hc), Hc, IH. reflexivity.
Qed.

(** Literal patterns concatenate. *)
Lemma literalOf_app pre x post y :
  literalOf pre = Some x -> literalOf post = Some y ->
  literalOf (pre ++ post) = Some (x ++ y).
Proof.
  intros Hpre Hpost. revert x Hpre.
  assert (H : forall n pre, (String.length pre <= n)%nat ->
              forall x, literalOf pre = Some x ->
                        literalOf (pre ++ post) = Some (x ++ y)).
  { induction n as [|n IH]; intros [|c rest] Hlen x; cbn [String.length] in Hlen;
      try lia.
    - intros [= <-]. exact Hpost.
    - intros [= <-]. exact Hpost.
    - cbn [literalOf append]. destruct (Ascii.eqb c "\").
      + destruct rest as [|d rest']; [discriminate|].
        cbn [append]. destruct (isRegexSpecial d); [|discriminate].
        destruct (literalOf rest') as [z|] eqn:Hz; [|discriminate].
        intros [= <-]. cbn [String.length] in Hlen.
        rewrite (IH rest' ltac:(lia) z Hz). reflexivity.
      + destruct (isRegexSpecial c); [discriminate|].
        destruct (literalOf rest) as [z|] eqn:Hz; [|discriminate].
        intros [= <-]. rewrite (IH rest ltac:(lia) z Hz). reflexivity. }
  intros x. apply (H (String.length pre)). lia.
Qed.

End UtilsFacts.

(* ================================================================== *)
(** ** Properties of the utilities *)

Import Utils Pattern UtilsFacts.

(** X13. What escapeRegex returns is a pattern of literal atoms only, and the
    string this pattern matches is the argument: no character of the class is
    left bare, and nothing else is escaped. *)
Theorem escapeRegex_literal :
  forall s : string, literalOf (escapeRegex s) = Some s.
Proof.
  intros s. pose proof (literalOf_escapeRegex_app s "" "" eq_refl) as H.
  now rewrite !append_nil_r in H.
Qed.

(** X14. An escaped string keeps its meaning inside a larger pattern: between
    a literal pattern for x and a literal pattern for y it gives a literal
    pattern for x + s + y; and escaping distributes over concatenation. *)
Theorem escapeRegex_in_pattern :
  forall (pre post x y s : string),
    literalOf pre = Some x -> literalOf post = Some y ->
    literalOf (pre ++ escapeRegex s ++ post) = Some (x ++ s ++ y)
    /\ (forall a b, escapeRegex (a ++ b) = escapeRegex a ++ escapeRegex b).
Proof.
  intros pre post x y s Hpre Hpost. split.
  - apply literalOf_app; [exact Hpre|].
    now apply literalOf_escapeRegex_app.
  - apply escapeRegex_app.
Qed.

Lemma escapeRegex_in_pattern_witness :
  literalOf ("\[\[" ++ escapeRegex "$100 (USD)" ++ "\]\]")
  = Some ("[[" ++ "$100 (USD)" ++ "]]").
Proof.
  apply (escapeRegex_in_pattern "\[\[" "\]\]" "[[" "]]" "$100 (USD)");
    reflexivity.
Defined.

(** X15. escapeRegex lengthens a string by the number of its characters of
    the class, so at most doubles it, and returns exactly the strings without
    such a character unchanged; the slash is not of the class and is never
    escaped. *)
Theorem escapeRegex_length :
  forall s : string,
    len (escapeRegex s) = len s + countSpecial s
    /\ len s <= len (escapeRegex s) <= 2 * len s
    /\ (escapeRegex s = s <-> countSpecial s = 0)
    /\ escapeRegex (String "/" s) = String "/" (escapeRegex s).
Proof.
  intros s. pose proof (countSpecial_bounds s) as Hb.
  pose proof (len_escapeRegex s) as Hl.
  split; [exact Hl|]. split; [lia|]. split; [|reflexivity].
  split.
  - intros E. rewrite E in Hl. lia.
  - clear Hb Hl. induction s as [|c s IH]; cbn [escapeRegex countSpecial];
      [reflexivity|].
    pose proof (countSpecial_bounds s).
    destruct (isRegexSpecial c); intros H0; [lia|].
    rewrite IH by lia. reflexivity.
Qed.

Lemma escapeRegex_length_witness : escapeRegex "a/b" = "a/b".
Proof.
  destruct (escapeRegex_length "a/b") as (_ & _ & Hiff & _).
  apply Hiff. reflexivity.
Defined.

(* ================================================================== *)
(** ** Facts about generated ids *)

Module IdFacts.

Import Utils IdShape.

Lemma append_inv_head (p x y : string) : p ++ x = p ++ y -> x = y.
Proof.
  induction p as [|c p IH]; cbn [append]; [trivial|].
  intros [= H]. now apply IH.
Qed.

Lemma dash_not_digit : isDigit "-" = false.
Proof. reflexivity. Qed.

(** Two strings of digits, each followed by a dash and more, are equal only
    piece by piece. *)
Lemma split_at_dash a b x y :
  allDigits a = true -> allDigits b = true ->
  a ++ String "-" x = b ++ String "-" y -> a = b /\ x = y.
Proof.
  revert b. induction a as [|c a IH]; intros [|d b]; cbn [allDigits append].
  - intros _ _ [= ->]. now split.
  - intros _ Hb [= <- _]. rewrite dash_not_digit in Hb. discriminate Hb.
  - intros Ha _ [= -> _]. rewrite dash_not_digit in Ha. discriminate Ha.
  - intros Ha Hb [= -> E].
    apply andb_true_iff in Ha as [_ Ha]. apply andb_true_iff in Hb as [_ Hb].
    destruct (IH b Ha Hb E) as [-> ->]. now split.
Qed.

Lemma allDigits_uint (u : Decimal.uint) :
  allDigits (NilEmpty.string_of_uint u) = true.
Proof. induction u; cbn; auto. Qed.

Lemma allDigits_decimal n : 0 <= n -> allDigits (decimal n) = true.
Proof.
  intros Hn. unfold decimal. destruct n as [|p|p]; [reflexivity| |lia].
  cbn [Z.to_int NilZero.string_of_int]. unfold NilZero.string_of_uint.
  destruct (Pos.to_uint p); try reflexivity; apply allDigits_uint.
Qed.

Lemma to_int_not_nil n :
  Z.to_int n <> Decimal.Pos Decimal.Nil /\ Z.to_int n <> Decimal.Neg Decimal.Nil.
Proof.
  split; intros E; pose proof (DecimalZ.of_to n) as H; rewrite E in H;
    cbn in H; subst n; discriminate E.
Qed.

Lemma decimal_inj n m : decimal n = decimal m -> n = m.
Proof.
  unfold decimal. intros E. apply DecimalZ.to_int_inj.
  destruct (to_int_not_nil n) as [Hn1 Hn2].
  destruct (to_int_not_nil m) as [Hm1 Hm2].
  pose proof (NilZero.isi _ Hn1 Hn2) as Hn.
  pose proof (NilZero.isi _ Hm1 Hm2) as Hm.
  rewrite E in Hn. congruence.
Qed.

Lemma decimal_first n :
  exists c rest, decimal n = String c rest /\ (isDigit c = true \/ c = "-"%char).
Proof.
  unfold decimal. destruct n as [|p|p]; cbn [Z.to_int NilZero.string_of_int].
  - exists "0"%char, ""; split; [reflexivity | now left].
  - unfold NilZero.string_of_uint.
    destruct (Pos.to_uint p); cbn [NilEmpty.string_of_uint];
      eexists; eexists; (split; [reflexivity | now left]).
  - eexists; eexists; split; [reflexivity | now right].
Qed.

(** The length of any [substring]. *)
Lemma len_substring s a b :
  len (substring s a (Some b))
  = Z.abs (clampIndex s b - clampIndex s a).
Proof.
  unfold substring. set (a' := clampIndex s a); set (b' := clampIndex s b).
  assert (0 <= a' <= len s /\ 0 <= b' <= len s) as [Ha Hb]
    by (unfold a', b', clampIndex; pose proof (len_nonneg s); lia).
  unfold len in *. rewrite length_take, length_drop. lia.
Qed.

End IdFacts.

(* ================================================================== *)
(** ** Properties of generateId *)

Import IdShape IdFacts.

(** X16. Two ids generated with the same prefix are equal only when they
    were generated in the same millisecond with the same random part (the
    characters 2 to 8 of the random number in base 36); timestamps are not
    negative. *)
Theorem generateId_collision :
  forall (prefix : option string) (now1 now2 : Z) (random1 random2 : string),
    0 <= now1 -> 0 <= now2 ->
    generateId prefix now1 random1 = generateId prefix now2 random2 ->
    now1 = now2
    /\ substring random1 2 (Some 9) = substring random2 2 (Some 9).
Proof.
  intros prefix now1 now2 random1 random2 H1 H2. unfold generateId.
  intros E. apply append_inv_head in E. cbn [append] in E.
  injection E as E.
  apply split_at_dash in E as [En Er];
    [| now apply allDigits_decimal | now apply allDigits_decimal].
  split; [now apply decimal_inj | exact Er].
Qed.

Lemma generateId_collision_witness :
  1728328476123 = 1728328476123
  /\ substring "0.f2k9m3pzz" 2 (Some 9) = substring "0.f2k9m3pab" 2 (Some 9).
Proof.
  apply (generateId_collision (Some "editor") 1728328476123 1728328476123
           "0.f2k9m3pzz" "0.f2k9m3pab"); [lia | lia | reflexivity].
Defined.

(** X17. A generated id is the prefix, or wikiweave when none is given, a
    dash, the timestamp in decimal, a dash and a random part of at most 7
    characters: exactly 7 when the random number has 9 characters or more in
    base 36, none when it has 2 or fewer. *)
Theorem generateId_shape :
  forall (prefix : option string) (now : Z) (random36 : string),
    exists random,
      generateId prefix now random36
      = match prefix with Some p => p | None => "wikiweave" end
        ++ "-" ++ decimal now ++ "-" ++ random
      /\ len random <= 7
      /\ (9 <= len random36 -> len random = 7)
      /\ (len random36 <= 2 -> random = "").
Proof.
  intros prefix now random36. eexists. split; [reflexivity|].
  pose proof (len_nonneg random36) as Hl.
  pose proof (len_substring random36 2 9) as Hs. unfold clampIndex in Hs.
  repeat split.
  - lia.
  - intros H. lia.
  - intros H. apply ViewFacts.len_zero_empty. lia.
Qed.

Lemma generateId_shape_witness :
  exists random,
    generateId None 0 "0.4fzyo82mvyr"
    = "wikiweave" ++ "-" ++ decimal 0 ++ "-" ++ random
    /\ len random = 7.
Proof.
  destruct (generateId_shape None 0 "0.4fzyo82mvyr")
    as (random & E & _ & H9 & _).
  exists random. split; [exact E|]. apply H9. unfold len; cbn; lia.
Defined.

(* ================================================================== *)
(** ** Facts about the element factory *)

Module DomBuilderFacts.

Import JsValue DomBuilder DomBuilderContract.

Lemma truthy_false s : truthy s = false <-> s = "".
Proof.
  unfold truthy. rewrite negb_false_iff. apply String.eqb_eq.
Qed.

Lemma trim_nonempty_truthy s :
  String.eqb (trim s) "" = false -> truthy s = true.
Proof.
  intros H. unfold truthy. destruct (String.eqb_spec s "") as [->|];
    [discriminate H | reflexivity].
Qed.

(** The class a container gets from [addCustomClasses]. *)
Lemma className_addCustomClasses options e :
  Element.className (addCustomClasses options e)
  = classWith (Element.className e) (optionsClassName options).
Proof.
  unfold addCustomClasses, classWith, optionsClassName.
  destruct options as [[i [c|]]|]; cbn [DomElementOptions.className];
    try reflexivity.
  destruct (String.eqb_spec c "") as [->|Hc].
  - reflexivity.
  - unfold truthy at 1. rewrite (proj2 (String.eqb_neq c "") Hc). cbn [negb].
    unfold truthy. destruct (String.eqb (trim c) ""); reflexivity.
Qed.

Lemma tagName_addCustomClasses options e :
  Element.tagName (addCustomClasses options e) = Element.tagName e.
Proof.
  unfold addCustomClasses. destruct options as [[i [c|]]|]; cbn; try reflexivity.
  destruct (truthy c); [|reflexivity]. now destruct (truthy (trim c)).
Qed.

Lemma children_addCustomClasses options e :
  Element.children (addCustomClasses options e) = Element.children e.
Proof.
  unfold addCustomClasses. destruct options as [[i [c|]]|]; cbn; try reflexivity.
  destruct (truthy c); [|reflexivity]. now destruct (truthy (trim c)).
Qed.

(** One proof for the five creators of containers. *)
Ltac box_contract :=
  intros options n;
  unfold createEditorContainer, createToolbar, createEditorBody, createPreview,
    createAutocomplete, bind, validateDomOptions, throwIf, throw, ret, idOr,
    freshId, optionsId;
  destruct options as [[[i|] c]|]; cbn [DomElementOptions.id truthyOpt];
  [ destruct (String.eqb (trim i) "") eqn:Hi; [reflexivity|];
    rewrite (trim_nonempty_truthy i Hi)
  | | ];
  (eexists; split; [reflexivity|]; split; [reflexivity|];
   cbn [Element.tagName Element.className Element.children Element.set_id];
   rewrite tagName_addCustomClasses, className_addCustomClasses,
     children_addCustomClasses;
   repeat split).

Lemma createEditorContainer_contract now random36 :
  boxContract now random36 (createEditorContainer now random36)
    "createEditorContainer" "div" "wikiweave-editor" "editor".
Proof. box_contract. Qed.

Lemma createToolbar_contract now random36 :
  boxContract now random36 (createToolbar now random36)
    "createToolbar" "div" "wikiweave-toolbar" "toolbar".
Proof. box_contract. Qed.

Lemma createEditorBody_contract now random36 :
  boxContract now random36 (createEditorBody now random36)
    "createEditorBody" "div" "wikiweave-editor-body" "editor-body".
Proof. box_contract. Qed.

Lemma createPreview_contract now random36 :
  boxContract now random36 (createPreview now random36)
    "createPreview" "article" "wikiweave-preview" "preview".
Proof. box_contract. Qed.

Lemma createAutocomplete_contract now random36 :
  boxContract now random36 (createAutocomplete now random36)
    "createAutocomplete" "ul" "wikiweave-autocomplete" "autocomplete".
Proof. box_contract. Qed.

(** A present, non-empty id or a generated one: [idOr] never throws. *)
Lemma idOr_returns now random36 id prefix n :
  idOr now random36 id prefix n
  = (inr (if truthyOpt id then match id with Some i => i | None => "" end
          else Utils.generateId (Some prefix) (now n) (random36 n)),
     if truthyOpt id then n else S n).
Proof. unfold idOr, freshId, ret. now destruct (truthyOpt id). Qed.

(** A number from 1 up, below 2^31, is kept without its fraction. *)
Lemma rowsKept_floor (q : Q) :
  (1 <= q)%Q -> (q < inject_Z 2147483648)%Q ->
  Element.rowsKept (Finite q) = Qfloor q.
Proof.
  intros Hq Hmax.
  assert (H0 : Qle_bool 0 q = true).
  { apply Qle_bool_iff. eapply Qle_trans; [|exact Hq]. discriminate. }
  assert (Hlo : 1 <= Qfloor q).
  { apply Qfloor_resp_le in Hq. exact Hq. }
  assert (Hhi : Qfloor q < 2147483648).
  { rewrite Zlt_Qlt. eapply Qle_lt_trans; [apply Qfloor_le | exact Hmax]. }
  unfold Element.rowsKept, Element.unsignedLong, toUnsignedLong, truncate.
  rewrite H0. cbv zeta.
  rewrite Z.mod_small by (change (2 ^ 32) with 4294967296; lia).
  replace (1 <=? Qfloor q) with true by (symmetry; apply Z.leb_le; lia).
  replace (Qfloor q <=? 2147483647) with true
    by (symmetry; apply Z.leb_le; lia).
  reflexivity.
Qed.

(** createTextarea in closed form. *)
Lemma createTextarea_closed now random36 placeholder options n :
  createTextarea now random36 placeholder options n
  = if rowsRefused options then (inl RowsMustBePositive, n)
    else
      (inr (textareaOf now random36 placeholder options n),
       if truthyOpt (textareaId options) then n else S n).
Proof.
  unfold createTextarea, bind, throwIf, throw, hasRows, rowsRefused, textareaOf.
  fold (textareaId options).
  destruct (textareaRows options) as [r|] eqn:Hr.
  - destruct (truthyNumber r) eqn:Ht; cbn [andb].
    + destruct (JsNumber.lt r (JsNumber.ofZ 1)); [reflexivity|].
      cbn [ret]. rewrite idOr_returns. unfold ret, textareaClassName.
      destruct options as [[i c rw sc]|]; [|discriminate Hr].
      cbn [TextareaOptions.className TextareaOptions.spellcheck].
      destruct placeholder as [p|]; [cbn [truthyOpt]; destruct (truthy p)|];
        (destruct c as [c|]; [destruct (truthy c)|]); reflexivity.
    + cbn [ret]. rewrite idOr_returns. unfold ret, textareaClassName.
      destruct options as [[i c rw sc]|]; [|discriminate Hr].
      cbn [TextareaOptions.className TextareaOptions.spellcheck].
      destruct placeholder as [p|]; [cbn [truthyOpt]; destruct (truthy p)|];
        (destruct c as [c|]; [destruct (truthy c)|]); reflexivity.
  - cbn [andb ret]. rewrite idOr_returns. unfold ret, textareaClassName.
    destruct options as [[i c rw sc]|];
      cbn [TextareaOptions.className TextareaOptions.spellcheck];
      (destruct placeholder as [p|]; [cbn [truthyOpt]; destruct (truthy p)|]);
      try (destruct c as [c|]; [destruct (truthy c)|]); reflexivity.
Qed.

(** The creators without options, and the container of a structure. *)
Lemma createToolbar_default now random36 n :
  createToolbar now random36 None n
  = (inr (box "div" "wikiweave-toolbar"
            (Utils.generateId (Some "toolbar") (now n) (random36 n))
            [("role", "toolbar")] None), S n).
Proof. reflexivity. Qed.

Lemma createEditorBody_default now random36 n :
  createEditorBody now random36 None n
  = (inr (box "div" "wikiweave-editor-body"
            (Utils.generateId (Some "editor-body") (now n) (random36 n))
            [] None), S n).
Proof. reflexivity. Qed.

Lemma createPreview_default now random36 n :
  createPreview now random36 None n
  = (inr (box "article" "wikiweave-preview"
            (Utils.generateId (Some "preview") (now n) (random36 n))
            [("role", "region"); ("aria-label", "Markdown preview")] None),
     S n).
Proof. reflexivity. Qed.

Lemma createAutocomplete_default now random36 n :
  createAutocomplete now random36 None n
  = (inr (box "ul" "wikiweave-autocomplete"
            (Utils.generateId (Some "autocomplete") (now n) (random36 n))
            [("role", "listbox")] (Some "none")), S n).
Proof. reflexivity. Qed.

Lemma createEditorContainer_for_structure now random36 options n :
  let containerId := structureContainerId options in
  createEditorContainer now random36
    (if truthyOpt containerId
     then Some {| DomElementOptions.id := containerId;
                  DomElementOptions.className := None |}
     else None) n
  = if containerIdRefused options then
      (inl (IdCannotBeEmpty "createEditorContainer"), n)
    else
      (inr (box "div" "wikiweave-editor"
              (if truthyOpt containerId
               then match containerId with Some i => i | None => "" end
               else Utils.generateId (Some "editor") (now n) (random36 n))
              [] None),
       if truthyOpt containerId then n else S n).
Proof.
  unfold containerIdRefused, structureContainerId.
  destruct options as [[p [i|] topts]|];
    cbn [EditorStructureOptions.containerId truthyOpt]; try reflexivity.
  destruct (truthy i) eqn:Hi; cbn [andb]; [|reflexivity].
  unfold createEditorContainer, bind, validateDomOptions, throwIf, throw, ret,
    optionsId.
  cbn [DomElementOptions.id]. destruct (String.eqb (trim i) ""); [reflexivity|].
  rewrite idOr_returns. cbn [truthyOpt]. rewrite Hi. reflexivity.
Qed.

(** createEditorStructure in closed form. *)
Lemma createEditorStructure_closed now random36 options n :
  let containerId := structureContainerId options in
  let topts := structureTextareaOptions options in
  let n1 := if truthyOpt containerId then n else S n in
  let n2 := if truthyOpt (textareaId topts) then S (S n1) else S (S (S n1)) in
  let container :=
    box "div" "wikiweave-editor"
      (if truthyOpt containerId
       then match containerId with Some i => i | None => "" end
       else Utils.generateId (Some "editor") (now n) (random36 n))
      [] None in
  let toolbar :=
    box "div" "wikiweave-toolbar"
      (Utils.generateId (Some "toolbar") (now n1) (random36 n1))
      [("role", "toolbar")] None in
  let editorBody :=
    box "div" "wikiweave-editor-body"
      (Utils.generateId (Some "editor-body") (now (S n1)) (random36 (S n1)))
      [] None in
  let textarea :=
    textareaOf now random36 (structurePlaceholder options) topts (S (S n1)) in
  let preview :=
    box "article" "wikiweave-preview"
      (Utils.generateId (Some "preview") (now n2) (random36 n2))
      [("role", "region"); ("aria-label", "Markdown preview")] None in
  let autocomplete :=
    box "ul" "wikiweave-autocomplete"
      (Utils.generateId (Some "autocomplete") (now (S n2)) (random36 (S n2)))
      [("role", "listbox")] (Some "none") in
  let editorBody :=
    Element.appendChild preview (Element.appendChild textarea editorBody) in
  createEditorStructure now random36 options n
  = if containerIdRefused options then
      (inl (IdCannotBeEmpty "createEditorContainer"), n)
    else if rowsRefused topts then (inl RowsMustBePositive, S (S n1))
    else
      (inr {| EditorStructure.container :=
                Element.appendChild autocomplete
                  (Element.appendChild editorBody
                     (Element.appendChild toolbar container));
              EditorStructure.toolbar := toolbar;
              EditorStructure.editorBody := editorBody;
              EditorStructure.textarea := textarea;
              EditorStructure.preview := preview;
              EditorStructure.autocomplete := autocomplete |},
       S (S n2)).
Proof.
  cbv zeta. unfold createEditorStructure, bind.
  fold (structureContainerId options) (structurePlaceholder options)
    (structureTextareaOptions options).
  rewrite createEditorContainer_for_structure.
  destruct (containerIdRefused options); [reflexivity|].
  rewrite createToolbar_default, createEditorBody_default,
    createTextarea_closed.
  destruct (rowsRefused (structureTextareaOptions options)); [reflexivity|].
  rewrite createPreview_default, createAutocomplete_default. reflexivity.
Qed.

End DomBuilderFacts.

(* ================================================================== *)
(** ** Properties of the element factory *)

Import JsValue DomBuilder DomBuilderContract DomBuilderFacts.

(** X18. createEditorContainer, createToolbar, createEditorBody, createPreview
    and createAutocomplete refuse an id that is given and blank, without
    generating an id; otherwise they return an element with their tag, with
    the given id as it is or an id generated with their prefix, with their
    base class followed by the custom classes without the white space around
    them, if any, and without children. *)
Theorem container_creators_contract :
  forall (now : nat -> Z) (random36 : nat -> string),
    boxContract now random36 (createEditorContainer now random36)
      "createEditorContainer" "div" "wikiweave-editor" "editor"
    /\ boxContract now random36 (createToolbar now random36)
         "createToolbar" "div" "wikiweave-toolbar" "toolbar"
    /\ boxContract now random36 (createEditorBody now random36)
         "createEditorBody" "div" "wikiweave-editor-body" "editor-body"
    /\ boxContract now random36 (createPreview now random36)
         "createPreview" "article" "wikiweave-preview" "preview"
    /\ boxContract now random36 (createAutocomplete now random36)
         "createAutocomplete" "ul" "wikiweave-autocomplete" "autocomplete".
Proof.
  intros now random36. repeat split.
  - apply createEditorContainer_contract.
  - apply createToolbar_contract.
  - apply createEditorBody_contract.
  - apply createPreview_contract.
  - apply createAutocomplete_contract.
Qed.

(** X19. createTextarea and the rows option: a number that is 0, or NaN, or
    no number at all, is not refused, and no rows are set; a number other
    than 0 that is below 1 is refused; a number from 1 up, below 2^31, is
    accepted, and the textarea has that many rows, without the fraction. *)
Theorem createTextarea_rows :
  forall (now : nat -> Z) (random36 : nat -> string)
         (placeholder id className : option string) (spellcheck : option bool)
         (n : nat),
    let create rows :=
      createTextarea now random36 placeholder
        (Some {| TextareaOptions.id := id;
                 TextareaOptions.className := className;
                 TextareaOptions.rows := rows;
                 TextareaOptions.spellcheck := spellcheck |}) n in
    (forall q : Q,
        (q == 0)%Q ->
        exists e n', create (Some (Finite q)) = (inr e, n')
                     /\ Element.rows e = None)
    /\ (exists e n', create (Some NaN) = (inr e, n') /\ Element.rows e = None)
    /\ (exists e n', create None = (inr e, n') /\ Element.rows e = None)
    /\ (forall q : Q,
           ~ (q == 0)%Q -> (q < 1)%Q ->
           create (Some (Finite q)) = (inl RowsMustBePositive, n))
    /\ (forall q : Q,
           (1 <= q)%Q -> (q < inject_Z 2147483648)%Q ->
           exists e n', create (Some (Finite q)) = (inr e, n')
                        /\ Element.rows e = Some (Qfloor q)).
Proof.
  intros now random36 placeholder id className spellcheck n create.
  subst create. repeat split.
  - intros q Hq. rewrite createTextarea_closed.
    unfold rowsRefused, textareaRows. cbn [TextareaOptions.rows truthyNumber].
    rewrite (proj2 (Qeq_bool_iff q 0) Hq). cbn [negb andb].
    eexists; eexists; split; [reflexivity|].
    unfold textareaOf, textareaRows.
    cbn [Element.rows TextareaOptions.rows truthyNumber].
    now rewrite (proj2 (Qeq_bool_iff q 0) Hq).
  - rewrite createTextarea_closed. eexists; eexists; split; reflexivity.
  - rewrite createTextarea_closed. eexists; eexists; split; reflexivity.
  - intros q Hq0 Hq1. rewrite createTextarea_closed.
    unfold rowsRefused, textareaRows.
    cbn [TextareaOptions.rows truthyNumber lt ofZ].
    replace (Qeq_bool q 0) with false
      by (symmetry; apply not_true_iff_false; intros H;
          apply Hq0, Qeq_bool_iff, H).
    replace (Qltb q (inject_Z 1)) with true
      by (symmetry; apply Qltb_lt; exact Hq1).
    reflexivity.
  - intros q Hq Hmax. rewrite createTextarea_closed.
    unfold rowsRefused, textareaRows.
    cbn [TextareaOptions.rows truthyNumber lt ofZ].
    assert (Hne : Qeq_bool q 0 = false).
    { apply not_true_iff_false. intros H. apply Qeq_bool_iff in H.
      rewrite H in Hq. apply (Qle_not_lt _ _ Hq). reflexivity. }
    assert (Hlt : Qltb q (inject_Z 1) = false).
    { apply not_true_iff_false. intros H. apply Qltb_lt in H.
      exact (Qle_not_lt _ _ Hq H). }
    rewrite Hne, Hlt. cbn [negb andb].
    eexists; eexists; split; [reflexivity|].
    unfold textareaOf, textareaRows.
    cbn [Element.rows TextareaOptions.rows truthyNumber].
    rewrite Hne. cbn [negb]. f_equal. now apply rowsKept_floor.
Qed.

Lemma createTextarea_rows_witness :
  createTextarea exampleNow exampleRandom36 None
    (Some {| TextareaOptions.id := None;
             TextareaOptions.className := None;
             TextareaOptions.rows := Some (Finite (1 # 2));
             TextareaOptions.spellcheck := None |}) 0%nat
  = (inl RowsMustBePositive, 0%nat)
  /\ (exists e n',
         createTextarea exampleNow exampleRandom36 None
           (Some {| TextareaOptions.id := None;
                    TextareaOptions.className := None;
                    TextareaOptions.rows := Some (Finite 0);
                    TextareaOptions.spellcheck := None |}) 0%nat
         = (inr e, n')
         /\ Element.rows e = None)
  /\ (exists e n',
         createTextarea exampleNow exampleRandom36 None
           (Some {| TextareaOptions.id := None;
                    TextareaOptions.className := None;
                    TextareaOptions.rows := Some (Finite (5 # 2));
                    TextareaOptions.spellcheck := None |}) 0%nat
         = (inr e, n')
         /\ Element.rows e = Some 2).
Proof.
  destruct (createTextarea_rows exampleNow exampleRandom36 None None None None
              0%nat)
    as (Hzero & _ & _ & Hlow & Hset).
  split; [|split].
  - apply (Hlow (1 # 2)%Q); [discriminate | reflexivity].
  - apply (Hzero 0%Q). reflexivity.
  - apply (Hset (5 # 2)%Q); [discriminate | reflexivity].
Defined.

(** X20. createTextarea, unlike the creators of the containers, refuses no
    id and no class: a given id that is not empty is kept as it is, blank or
    not, and no id is generated; a given class that is not empty is appended
    after a space without the white space around it, so that a blank class
    leaves the base class followed by a space. *)
Theorem createTextarea_lenient :
  forall (now : nat -> Z) (random36 : nat -> string)
         (placeholder : option string) (options : option TextareaOptions.t)
         (n : nat),
    rowsRefused options = false ->
    exists e n',
      createTextarea now random36 placeholder options n = (inr e, n')
      /\ Element.tagName e = "textarea"
      /\ (forall i, textareaId options = Some i -> i <> "" ->
          Element.id e = i /\ n' = n)
      /\ (textareaId options = None \/ textareaId options = Some "" ->
          Element.id e = Utils.generateId (Some "textarea") (now n) (random36 n)
          /\ n' = S n)
      /\ (forall c, textareaClassName options = Some c -> c <> "" ->
          Element.className e = "wikiweave-textarea " ++ trim c)
      /\ (forall c, textareaClassName options = Some c -> c <> "" ->
          trim c = "" -> Element.className e = "wikiweave-textarea ")
      /\ (textareaClassName options = None
          \/ textareaClassName options = Some "" ->
          Element.className e = "wikiweave-textarea").
Proof.
  intros now random36 placeholder options n Hrows.
  rewrite createTextarea_closed, Hrows.
  eexists; eexists; split; [reflexivity|].
  unfold textareaOf. cbn [Element.tagName Element.id Element.className].
  split; [reflexivity|]. split; [|split; [|split; [|split]]].
  - intros i -> Hi. cbn [truthyOpt]. unfold truthy.
    rewrite (proj2 (String.eqb_neq i "") Hi). split; reflexivity.
  - intros [-> | ->]; split; reflexivity.
  - intros c -> Hc. unfold truthy.
    now rewrite (proj2 (String.eqb_neq c "") Hc).
  - intros c -> Hc Ht. unfold truthy.
    rewrite (proj2 (String.eqb_neq c "") Hc). cbn [negb]. now rewrite Ht.
  - intros [-> | ->]; reflexivity.
Qed.

Lemma createTextarea_lenient_witness :
  exists e n',
    createTextarea exampleNow exampleRandom36 None
      (Some {| TextareaOptions.id := Some " ";
               TextareaOptions.className := Some "  ";
               TextareaOptions.rows := None;
               TextareaOptions.spellcheck := None |}) 0%nat
    = (inr e, n')
    /\ Element.id e = " " /\ Element.className e = "wikiweave-textarea ".
Proof.
  destruct (createTextarea_lenient exampleNow exampleRandom36 None
              (Some {| TextareaOptions.id := Some " ";
                       TextareaOptions.className := Some "  ";
                       TextareaOptions.rows := None;
                       TextareaOptions.spellcheck := None |}) 0%nat eq_refl)
    as (e & n' & Hrun & _ & Hid & _ & _ & Hblank & _).
  exists e, n'. split; [exact Hrun|]. split.
  - apply (Hid " "); [reflexivity | discriminate].
  - apply (Hblank "  "); [reflexivity | discriminate | reflexivity].
Defined.

(** X21. createToolbarButton asks for options, then for a title, then for an
    icon, then for a label, each not blank, and throws for the first that is
    missing without generating an id; otherwise it returns a button with the
    title as given, the label as aria-label, as its markup what the browser
    makes of the icon, and the given id when it is not empty, or else a
    generated one. *)
Theorem createToolbarButton_contract :
  forall (now : nat -> Z) (random36 : nat -> string)
         (reserialize : string -> string) (n : nat),
    createToolbarButton now random36 reserialize None n
    = (inl ToolbarButtonOptionsRequired, n)
    /\ forall o : ToolbarButtonOptions.t,
      let run := createToolbarButton now random36 reserialize (Some o) n in
      (blank (ToolbarButtonOptions.title o) = true ->
       run = (inl TitleRequired, n))
      /\ (blank (ToolbarButtonOptions.title o) = false ->
          blank (ToolbarButtonOptions.icon o) = true ->
          run = (inl IconRequired, n))
      /\ (blank (ToolbarButtonOptions.title o) = false ->
          blank (ToolbarButtonOptions.icon o) = false ->
          blank (ToolbarButtonOptions.ariaLabel o) = true ->
          run = (inl AriaLabelRequired, n))
      /\ (blank (ToolbarButtonOptions.title o) = false ->
          blank (ToolbarButtonOptions.icon o) = false ->
          blank (ToolbarButtonOptions.ariaLabel o) = false ->
          exists e,
            run = (inr e, if truthyOpt (ToolbarButtonOptions.id o)
                          then n else S n)
            /\ Element.tagName e = "button"
            /\ Element.type_ e = Some "button"
            /\ Element.className e = "wikiweave-toolbar-button"
            /\ Element.title e = Some (ToolbarButtonOptions.title o)
            /\ Element.innerHTML e
               = Some (reserialize (ToolbarButtonOptions.icon o))
            /\ Element.attributes e
               = [("aria-label", ToolbarButtonOptions.ariaLabel o)]
            /\ Element.id e
               = if truthyOpt (ToolbarButtonOptions.id o)
                 then match ToolbarButtonOptions.id o with
                      | Some i => i
                      | None => ""
                      end
                 else Utils.generateId (Some "toolbar-button")
                        (now n) (random36 n)).
Proof.
  intros now random36 reserialize n. split; [reflexivity|].
  intros o run. subst run.
  unfold createToolbarButton, bind, throwIf, throw, ret.
  repeat split.
  - intros ->. reflexivity.
  - intros -> ->. reflexivity.
  - intros -> -> ->. reflexivity.
  - intros -> -> ->. rewrite idOr_returns.
    eexists; split; [reflexivity|]. repeat split.
Qed.

Lemma createToolbarButton_contract_witness :
  createToolbarButton exampleNow exampleRandom36 exampleReserialize
    (Some {| ToolbarButtonOptions.id := None;
             ToolbarButtonOptions.title := "Bold (Ctrl+B)";
             ToolbarButtonOptions.icon := "   ";
             ToolbarButtonOptions.ariaLabel := "Make text bold" |}) 0%nat
  = (inl IconRequired, 0%nat).
Proof.
  destruct (createToolbarButton_contract exampleNow exampleRandom36
              exampleReserialize 0%nat)
    as (_ & H).
  apply (H {| ToolbarButtonOptions.id := None;
              ToolbarButtonOptions.title := "Bold (Ctrl+B)";
              ToolbarButtonOptions.icon := "   ";
              ToolbarButtonOptions.ariaLabel := "Make text bold" |});
    reflexivity.
Defined.

(** X22. A structure returned by createEditorStructure is one tree: the
    container holds the toolbar, the editor body and the autocomplete list in
    this order, the editor body holds the textarea and the preview, and these
    are the elements the structure names; the tags are div, div, div,
    textarea, article and ul; four to six ids were generated. *)
Theorem createEditorStructure_shape :
  forall (now : nat -> Z) (random36 : nat -> string)
         (options : option EditorStructureOptions.t) (n n' : nat)
         (s : EditorStructure.t),
    createEditorStructure now random36 options n = (inr s, n') ->
    Element.children (EditorStructure.container s)
    = [EditorStructure.toolbar s; EditorStructure.editorBody s;
       EditorStructure.autocomplete s]
    /\ Element.children (EditorStructure.editorBody s)
       = [EditorStructure.textarea s; EditorStructure.preview s]
    /\ Element.children (EditorStructure.toolbar s) = []
    /\ Element.children (EditorStructure.textarea s) = []
    /\ Element.children (EditorStructure.preview s) = []
    /\ Element.children (EditorStructure.autocomplete s) = []
    /\ map Element.tagName
         [EditorStructure.container s; EditorStructure.toolbar s;
          EditorStructure.editorBody s; EditorStructure.textarea s;
          EditorStructure.preview s; EditorStructure.autocomplete s]
       = ["div"; "div"; "div"; "textarea"; "article"; "ul"]
    /\ (n + 4 <= n' <= n + 6)%nat.
Proof.
  intros now random36 options n n' s.
  rewrite createEditorStructure_closed.
  destruct (containerIdRefused options); [discriminate|].
  destruct (rowsRefused (structureTextareaOptions options)); [discriminate|].
  intros H; inversion H; subst; clear H.
  cbn [EditorStructure.container EditorStructure.toolbar
       EditorStructure.editorBody EditorStructure.textarea
       EditorStructure.preview EditorStructure.autocomplete].
  repeat split;
    try (destruct (truthyOpt (structureContainerId options));
         destruct (truthyOpt (textareaId (structureTextareaOptions options)));
         lia).
Qed.

Lemma createEditorStructure_shape_witness :
  exists s,
    createEditorStructure exampleNow exampleRandom36 None 0%nat
    = (inr s, 6%nat)
    /\ Element.children (EditorStructure.editorBody s)
       = [EditorStructure.textarea s; EditorStructure.preview s].
Proof.
  eexists. split; [reflexivity|].
  apply (createEditorStructure_shape exampleNow exampleRandom36 None 0%nat
           6%nat _ eq_refl).
Defined.

(** X23. createEditorStructure refuses a container id that is not empty and
    blank, before anything else and without generating an id; after that it
    refuses the rows of the textarea options as createTextarea does; it
    refuses nothing else.  An empty container id is not refused: the
    container gets a generated id. *)
Theorem createEditorStructure_refusals :
  forall (now : nat -> Z) (random36 : nat -> string)
         (options : option EditorStructureOptions.t) (n : nat),
    let run := createEditorStructure now random36 options n in
    (containerIdRefused options = true ->
     run = (inl (IdCannotBeEmpty "createEditorContainer"), n))
    /\ (containerIdRefused options = false ->
        rowsRefused (structureTextareaOptions options) = true ->
        fst run = inl RowsMustBePositive)
    /\ (containerIdRefused options = false ->
        rowsRefused (structureTextareaOptions options) = false ->
        exists s n', run = (inr s, n'))
    /\ (structureContainerId options = Some "" ->
        rowsRefused (structureTextareaOptions options) = false ->
        exists s n',
          run = (inr s, n')
          /\ Element.id (EditorStructure.container s)
             = Utils.generateId (Some "editor") (now n) (random36 n)).
Proof.
  intros now random36 options n run. subst run.
  rewrite createEditorStructure_closed. repeat split.
  - intros ->. reflexivity.
  - intros -> ->. reflexivity.
  - intros -> ->. eexists; eexists; reflexivity.
  - intros Hid ->.
    assert (containerIdRefused options = false) as ->.
    { unfold containerIdRefused, structureContainerId in *.
      destruct options as [o|]; [|discriminate Hid]. now rewrite Hid. }
    eexists; eexists; split; [reflexivity|].
    cbn [EditorStructure.container Element.id Element.appendChild box].
    now rewrite Hid.
Qed.

Lemma createEditorStructure_refusals_witness :
  createEditorStructure exampleNow exampleRandom36
    (Some {| EditorStructureOptions.placeholder := None;
             EditorStructureOptions.containerId := Some "  ";
             EditorStructureOptions.textareaOptions := None |}) 0%nat
  = (inl (IdCannotBeEmpty "createEditorContainer"), 0%nat)
  /\ (exists s n',
         createEditorStructure exampleNow exampleRandom36
           (Some {| EditorStructureOptions.placeholder := None;
                    EditorStructureOptions.containerId := Some "";
                    EditorStructureOptions.textareaOptions := None |}) 0%nat
         = (inr s, n')
         /\ Element.id (EditorStructure.container s)
            = "editor-1728328476123-f2k9m3p").
Proof.
  split.
  - apply (createEditorStructure_refusals exampleNow exampleRandom36
             (Some {| EditorStructureOptions.placeholder := None;
                      EditorStructureOptions.containerId := Some "  ";
                      EditorStructureOptions.textareaOptions := None |}) 0%nat).
    reflexivity.
  - apply (createEditorStructure_refusals exampleNow exampleRandom36
             (Some {| EditorStructureOptions.placeholder := None;
                      EditorStructureOptions.containerId := Some "";
                      EditorStructureOptions.textareaOptions := None |}) 0%nat);
      reflexivity.
Defined.

(** Ids generated with two of the six prefixes of a structure differ,
    whatever the clock and the random numbers. *)
Ltac ids_apart E :=
  unfold Utils.generateId in E; cbn [append] in E;
  first
    [ discriminate E
    | repeat match type of E with
             | String _ _ = String _ _ => injection E as E
             end;
      match type of E with
      | context [Utils.decimal ?a] =>
          let c := fresh "c" in
          let rest := fresh "rest" in
          let Hc := fresh "Hc" in
          destruct (decimal_first a) as (c & rest & Hc & [Hd | Hd]);
          rewrite Hc in E; cbn [append] in E;
          injection E as E ?; subst; discriminate
      end ].

(** X24. When no id is given for the container and for the textarea, the six
    ids of the structure are distinct, whatever the clock and the random
    numbers are: the six prefixes alone keep them apart. *)
Theorem createEditorStructure_ids_distinct :
  forall (now : nat -> Z) (random36 : nat -> string)
         (options : option EditorStructureOptions.t) (n : nat),
    truthyOpt (structureContainerId options) = false ->
    truthyOpt (textareaId (structureTextareaOptions options)) = false ->
    rowsRefused (structureTextareaOptions options) = false ->
    exists s,
      createEditorStructure now random36 options n = (inr s, (n + 6)%nat)
      /\ NoDup (structureIds s).
Proof.
  intros now random36 options n Hc Ht Hr.
  rewrite createEditorStructure_closed.
  assert (containerIdRefused options = false) as ->.
  { unfold containerIdRefused, structureContainerId in *.
    destruct options as [o|]; [|reflexivity].
    destruct (EditorStructureOptions.containerId o) as [i|]; [|reflexivity].
    cbn [truthyOpt] in Hc. now rewrite Hc. }
  rewrite Hr, Hc, Ht.
  eexists. split; [f_equal; lia|].
  unfold structureIds, textareaOf.
  cbn [EditorStructure.container EditorStructure.toolbar
       EditorStructure.editorBody EditorStructure.textarea
       EditorStructure.preview EditorStructure.autocomplete
       Element.id Element.appendChild box].
  rewrite Ht.
  repeat constructor; cbn [In]; intros H;
    repeat match type of H with
           | _ \/ _ => destruct H as [H|H]
           | False => contradiction
           end;
    ids_apart H.
Qed.

Lemma createEditorStructure_ids_distinct_witness :
  exists s,
    createEditorStructure exampleNow exampleRandom36 None 0%nat
    = (inr s, 6%nat)
    /\ NoDup (structureIds s).
Proof.
  apply (createEditorStructure_ids_distinct exampleNow exampleRandom36 None
           0%nat); reflexivity.
Defined.

(* ================================================================== *)
(** ** Properties of the parser *)

(** X25. Parser.render returns nothing but what sanitizeHtml returned for
    what the renderer made of the markdown, and lets nothing that the
    renderer or sanitizeHtml throws through as it is: it throws for a null or
    undefined markdown, for a renderer that is not set, and otherwise wraps
    what was thrown in its own message. *)
Theorem render_contract :
  forall (mdRender sanitizeHtml : string -> string + string) (md : bool)
         (markdown : option string),
    (forall h,
        Parser.render mdRender sanitizeHtml md markdown = inr h ->
        exists text raw,
          markdown = Some text /\ md = true
          /\ mdRender text = inr raw /\ sanitizeHtml raw = inr h)
    /\ (forall e,
           Parser.render mdRender sanitizeHtml md markdown = inl e ->
           (e = Parser.MarkdownRequired /\ markdown = None)
           \/ (e = Parser.NotInitialized /\ md = false)
           \/ exists text thrown,
               markdown = Some text
               /\ e = Parser.FailedToParse thrown
               /\ Parser.message e
                  = "Parser.parse(): Failed to parse markdown. " ++ thrown
               /\ (mdRender text = inl thrown
                   \/ exists raw, mdRender text = inr raw
                                  /\ sanitizeHtml raw = inl thrown)).
Proof.
  intros mdRender sanitizeHtml md markdown. unfold Parser.render.
  destruct markdown as [text|].
  2: { split; [discriminate|]. intros e [= <-]. now left. }
  destruct md; cbn [negb].
  2: { split; [discriminate|]. intros e [= <-]. right; left. now split. }
  destruct (mdRender text) as [thrown|raw] eqn:Hr.
  - split; [discriminate|]. intros e [= <-]. right; right.
    exists text, thrown. repeat split. now left.
  - destruct (sanitizeHtml raw) as [thrown|clean] eqn:Hs.
    + split; [discriminate|]. intros e [= <-]. right; right.
      exists text, thrown. repeat split. right. now exists raw.
    + split; [|discriminate]. intros h [= <-]. now exists text, raw.
Qed.

Lemma render_contract_witness :
  exists text raw,
    Some "Hello" = Some text /\ true = true
    /\ Parser.exampleRender text = inr raw
    /\ Parser.exampleSanitize raw = inr "<p>Hello</p>".
Proof.
  apply (proj1 (render_contract Parser.exampleRender Parser.exampleSanitize
                  true (Some "Hello"))).
  reflexivity.
Defined.

(* ================================================================== *)
(** ** Facts about debounce *)

Module DebounceFacts.

Import Debounce.
Local Open Scope list_scope.

Section Simulation.

Context {A : Type}.
Variable wait : Z.

Lemma sim_call (a : A) (s : State) (last : option (A * Z)) :
  sim wait s last -> sim wait (call wait a s) (Some (a, 0)).
Proof.
  intros Hsim. exists (nextId s).
  assert (Hclear :
            pending (match timeoutId s with
                     | Some id => clearTimeout id s
                     | None => s
                     end) = []
            /\ clock (match timeoutId s with
                      | Some id => clearTimeout id s
                      | None => s
                      end) = clock s
            /\ nextId (match timeoutId s with
                       | Some id => clearTimeout id s
                       | None => s
                       end) = nextId s).
  { destruct last as [[b gone]|]; cbn [sim] in Hsim.
    - destruct Hsim as (id & Hp & ->). cbn [clearTimeout pending clock nextId].
      rewrite Hp. cbn [filter timerId]. now rewrite Nat.eqb_refl.
    - destruct (timeoutId s); cbn [clearTimeout pending clock nextId];
        rewrite ?Hsim; repeat split. }
  destruct Hclear as (Hp & Hc & Hn).
  unfold call, setTimeout. cbn [pending clock timeoutId]. rewrite Hp, Hc, Hn.
  cbn [app]. rewrite Z.sub_0_r. split; reflexivity.
Qed.

Lemma invoked_call (a : A) (s : State) :
  invoked (call wait a s) = invoked s.
Proof.
  unfold call, setTimeout. cbn [invoked]. now destruct (timeoutId s).
Qed.

Lemma sim_advance dt (s : @State A) (last : option (A * Z)) :
  sim wait s last ->
  match last with
  | Some (a, gone) =>
      if Z.max 0 wait <=? gone + Z.max 0 dt then
  sim wait (advance dt s) None
        /\ invoked (advance dt s) = invoked s ++ [a]
      else
        sim wait (advance dt s) (Some (a, gone + Z.max 0 dt))
        /\ invoked (advance dt s) = invoked s
  | None => sim wait (advance dt s) None /\ invoked (advance dt s) = invoked s
  end.
Proof.
  intros Hsim. destruct last as [[a gone]|]; cbn [sim] in Hsim.
  - destruct Hsim as (id & Hp & Hid).
    unfold advance. cbn [sim pending invoked clock timeoutId]. rewrite Hp.
    cbn [filter due map args].
    destruct (Z.leb_spec (Z.max 0 wait) (gone + Z.max 0 dt)) as [H|H].
    + replace (clock s + (Z.max 0 wait - gone) <=? clock s + Z.max 0 dt)
        with true by (symmetry; apply Z.leb_le; lia).
      cbn [negb map args]. split; reflexivity.
    + replace (clock s + (Z.max 0 wait - gone) <=? clock s + Z.max 0 dt)
        with false by (symmetry; apply Z.leb_gt; lia).
      cbn [negb map]. rewrite app_nil_r. split; [|reflexivity].
      exists id. split; [|exact Hid]. do 2 f_equal. lia.
  - unfold advance. cbn [sim pending invoked]. rewrite Hsim. cbn [filter map].
    now rewrite app_nil_r.
Qed.

(** The timers compute what [quiet] describes. *)
Lemma run_quiet (events : list (@Event A)) :
  forall (s : State) (last : option (A * Z)),
    sim wait s last ->
    invoked (run wait events s) = invoked s ++ quiet wait events last
    /\ exists last', sim wait (run wait events s) last'.
Proof.
  induction events as [|[a|dt] rest IH]; intros s last Hsim; cbn [run quiet].
  - rewrite app_nil_r. split; [reflexivity | now exists last].
  - destruct (IH (call wait a s) (Some (a, 0)) (sim_call a s last Hsim))
      as (Hinv & Hlast).
    rewrite Hinv, invoked_call. split; [reflexivity | exact Hlast].
  - pose proof (sim_advance dt s last Hsim) as Hadv.
    destruct last as [[a gone]|].
    + destruct (Z.max 0 wait <=? gone + Z.max 0 dt);
        destruct Hadv as (Hsim' & Hinv');
        destruct (IH _ _ Hsim') as (Hinv & Hlast);
        rewrite Hinv, Hinv', <- ?app_assoc; split; try reflexivity; assumption.
    + destruct Hadv as (Hsim' & Hinv').
      destruct (IH _ _ Hsim') as (Hinv & Hlast).
      rewrite Hinv, Hinv'. split; [reflexivity | exact Hlast].
Qed.

Lemma sim_initial : sim wait (@initial A) None.
Proof. reflexivity. Qed.

Lemma run_app e1 e2 (s : @State A) :
  run wait (e1 ++ e2) s = run wait e2 (run wait e1 s).
Proof.
  revert s. induction e1 as [|[a|dt] rest IH]; intros s; cbn [app run];
    [reflexivity | apply IH | apply IH].
Qed.

Lemma sim_pending (s : @State A) last :
  sim wait s last -> (List.length (pending s) <= 1)%nat.
Proof.
  destruct last as [[a gone]|]; cbn [sim].
  - intros (id & -> & _). cbn. lia.
  - intros ->. cbn. lia.
Qed.

Lemma quiet_burst calls b final :
  Forall (fun c : A * Z => 0 <= snd c < wait) calls -> wait <= final ->
  forall last, quiet wait (burst calls ++ [Call b; Wait final]) last = [b].
Proof.
  intros Hcalls Hfinal.
  induction Hcalls as [|[a gap] calls Hgap _ IH]; intros last.
  - cbn [burst flat_map app quiet].
    destruct (Z.leb_spec (Z.max 0 wait) (0 + Z.max 0 final)); [reflexivity|lia].
  - cbn [burst flat_map app quiet fst snd]. cbn [snd] in Hgap.
    destruct (Z.leb_spec (Z.max 0 wait) (0 + Z.max 0 gap)); [lia|].
    apply IH.
Qed.

End Simulation.

End DebounceFacts.

(* ================================================================== *)
(** ** Properties of debounce *)

Import Debounce DebounceFacts.

(** X26. Whatever the calls and the times between them, the function passed
    to debounce has been called, in order, with the arguments of exactly
    those calls that were followed by wait milliseconds without another call;
    and at no time is more than one timer set. *)
Theorem debounce_quiet :
  forall (A : Type) (wait : Z) (events : list (@Event A)),
    invoked (run wait events initial) = quiet wait events None
    /\ (List.length (pending (run wait events initial)) <= 1)%nat.
Proof.
  intros A wait events.
  destruct (run_quiet wait events initial None (sim_initial wait))
    as (Hinv & last & Hsim).
  split; [exact Hinv|]. eapply sim_pending; eassumption.
Qed.

(** X27. A burst of calls, each less than wait milliseconds after the one
    before, followed by wait milliseconds or more of quiet, makes one call of
    the function, with the arguments of the last call of the burst. *)
Theorem debounce_burst :
  forall (A : Type) (wait : Z) (calls : list (A * Z)) (b : A) (final : Z),
    Forall (fun c => 0 <= snd c < wait) calls -> wait <= final ->
    invoked (run wait (burst calls ++ [Call b; Wait final]) initial) = [b].
Proof.
  intros A wait calls b final Hcalls Hfinal.
  destruct (run_quiet wait (burst calls ++ [Call b; Wait final]) initial None
              (sim_initial wait)) as (Hinv & _).
  rewrite Hinv. cbn [invoked initial app].
  now apply quiet_burst.
Qed.

Lemma debounce_burst_witness :
  invoked (run 200 (burst [("H", 50); ("He", 120)]
                    ++ [Call "Hello"; Wait 200]) initial)
  = ["Hello"].
Proof.
  apply (debounce_burst string 200 [("H", 50); ("He", 120)] "Hello" 200).
  - repeat constructor; cbn; lia.
  - lia.
Defined.

(** X28. A call cancels the call that was waiting, and nothing is passed on
    before wait milliseconds have gone by: after any events, a call followed
    by less than wait milliseconds leaves the function called as before, and
    leaves one timer, with the arguments of that call. *)
Theorem debounce_not_early :
  forall (A : Type) (wait : Z) (events : list (@Event A)) (a : A) (dt : Z),
    0 <= dt < wait ->
    let s := run wait (events ++ [Call a; Wait dt]) initial in
    invoked s = invoked (run wait events initial)
    /\ map args (pending s) = [a].
Proof.
  intros A wait events a dt Hdt s. subst s.
  rewrite run_app. cbn [run].
  destruct (run_quiet wait events initial None (sim_initial wait))
    as (_ & last & Hsim).
  pose proof (sim_call wait a _ last Hsim) as Hcall.
  pose proof (sim_advance wait dt _ _ Hcall) as Hadv. cbn beta iota in Hadv.
  destruct (Z.leb_spec (Z.max 0 wait) (0 + Z.max 0 dt)); [lia|].
  destruct Hadv as ((id & Hp & _) & Hinv).
  rewrite Hinv, invoked_call, Hp. split; reflexivity.
Qed.

Lemma debounce_not_early_witness :
  invoked (run 200 ([Call "H"; Wait 300] ++ [Call "He"; Wait 199]) initial)
  = invoked (run 200 [Call "H"; Wait 300] initial)
  /\ map args (pending (run 200 ([Call "H"; Wait 300]
                                  ++ [Call "He"; Wait 199]) initial))
     = ["He"].
Proof.
  apply (debounce_not_early string 200 [Call "H"; Wait 300] "He" 199). lia.
Defined.
